(** * Yes24 IT book dashboard: data preparation and aggregation contracts

    A shallow embedding of [dashboard.py].  The script loads one CSV with
    pandas, cleans a few columns, and then, on every interaction, runs one
    of five views over the prepared table.

    Conventions of the embedding:
    - a Python [str] is a list of Unicode code points ([pystr]);
    - a pandas float is an exact rational ([Q]); rounding and infinities
      are outside the model, the correlation matrix is stated over [R];
    - a missing value (NaN, NaT, None) is [None] of an [option];
    - a Python exception is the [Raise] case of [result];
    - the recognisers of pandas that turn text into numbers and dates are
      the fields of the class [PandasParsers]: every statement holds for
      any such recognisers. *)

From Stdlib Require Import QArith Reals Lra Lia Ascii String Permutation Sorted.
From Stdlib Require Lqa.
From stdpp Require Import gmap strings list fin_maps.

(** ** Python strings *)

Module PyStr.

Definition pystr := list N.

(** Decoder for the UTF-8 bytes of a literal, so that the Korean markers of
    the source can be written as they are. *)
Fixpoint utf8_go (s : string) (pending : nat) (acc : N) : pystr :=
  match s with
  | EmptyString => []
  | String c s' =>
    let b := N_of_ascii c in
    match pending with
    | O =>
      if (b <? 128)%N then b :: utf8_go s' 0 0%N
      else if (b <? 224)%N then utf8_go s' 1 (N.land b 31)
      else if (b <? 240)%N then utf8_go s' 2 (N.land b 15)
      else utf8_go s' 3 (N.land b 7)
    | S k =>
      let acc' := N.lor (N.shiftl acc 6) (N.land b 63) in
      match k with
      | O => acc' :: utf8_go s' 0 0%N
      | S _ => utf8_go s' k acc'
      end
    end
  end.

Definition u (s : string) : pystr := utf8_go s 0 0%N.

Fixpoint starts_with (p s : pystr) : bool :=
  match p, s with
  | [], _ => true
  | _ :: _, [] => false
  | a :: p', b :: s' => (a =? b)%N && starts_with p' s'
  end.

(** [s.replace(old, new)] for a non-empty [old]: leftmost occurrences, not
    overlapping.  [skip] counts the characters of a match still to drop. *)
Fixpoint replace_go (old new s : pystr) (skip : nat) : pystr :=
  match s with
  | [] => []
  | c :: s' =>
    match skip with
    | S k => replace_go old new s' k
    | O =>
      if starts_with old s
      then new ++ replace_go old new s' (length old - 1)
      else c :: replace_go old new s' 0
    end
  end.

(** With an empty [old], Python puts [new] around every character. *)
Definition str_replace (old new s : pystr) : pystr :=
  match old with
  | [] => new ++ flat_map (fun c => c :: new) s
  | _ :: _ => replace_go old new s 0
  end.

(** [str.isspace] of one character. *)
Definition is_space (c : N) : bool :=
  ((9 <=? c) && (c <=? 13) || (28 <=? c) && (c <=? 32) || (c =? 133)
   || (c =? 160) || (c =? 5760) || (8192 <=? c) && (c <=? 8202)
   || (c =? 8232) || (c =? 8233) || (c =? 8239) || (c =? 8287)
   || (c =? 12288))%N.

Fixpoint lstrip (s : pystr) : pystr :=
  match s with
  | c :: s' => if is_space c then lstrip s' else s
  | [] => []
  end.

Definition strip (s : pystr) : pystr := rev (lstrip (rev (lstrip s))).

Definition is_digit (c : N) : bool := ((48 <=? c) && (c <=? 57))%N.

Definition digit_val (c : N) : Z := Z.of_N c - 48.

(** Digits of an integer literal: groups of digits, one underscore allowed
    between two digits.  [prev] tells whether the previous character was a
    digit. *)
Fixpoint int_digits (s : pystr) (prev : bool) (acc : Z) : option Z :=
  match s with
  | [] => if prev then Some acc else None
  | c :: s' =>
    if is_digit c then int_digits s' true (10 * acc + digit_val c)
    else if (c =? 95)%N && prev then int_digits s' false acc
    else None
  end.

(** [int(s)] in base 10 on a [str]; [None] stands for [ValueError].
    Digits are the ASCII ones: the decimal digits of other scripts, which
    the interpreter also accepts, and its cap on the number of digits are
    not modelled. *)
Definition py_int (s : pystr) : option Z :=
  match strip s with
  | [] => None
  | c :: rest =>
    if (c =? 45)%N then Z.opp <$> int_digits rest false 0
    else if (c =? 43)%N then int_digits rest false 0
    else int_digits (c :: rest) false 0
  end.

(** Lower case of an ASCII letter; other characters are left as they are. *)
Definition lower (c : N) : N :=
  if ((65 <=? c) && (c <=? 90))%N then (c + 32)%N else c.

Fixpoint str_compare (a b : pystr) : comparison :=
  match a, b with
  | [], [] => Eq
  | [], _ :: _ => Lt
  | _ :: _, [] => Gt
  | x :: a', y :: b' =>
    match (x ?= y)%N with
    | Eq => str_compare a' b'
    | o => o
    end
  end.

End PyStr.
Export PyStr.

(** ** The fragment of regular expressions a keyword is read in

    [Series.str.contains(keyword, case=False)] reads the keyword as a
    regular expression.  The embedding covers the patterns made of ordinary
    characters, the dot and backslash-escaped punctuation; any other
    pattern is outside it ([compile] gives [None]). *)

Module Regex.

Inductive atom : Type :=
  | Lit (c : N)
  | AnyChar.

(** The special characters of [re]: . ^ $ * + ? { } [ ] \ | ( ) *)
Definition is_meta (c : N) : bool :=
  ((c =? 46) || (c =? 94) || (c =? 36) || (c =? 42) || (c =? 43)
   || (c =? 63) || (c =? 123) || (c =? 125) || (c =? 91) || (c =? 93)
   || (c =? 92) || (c =? 124) || (c =? 40) || (c =? 41))%N.

Definition is_ascii_alnum (c : N) : bool :=
  ((48 <=? c) && (c <=? 57) || (65 <=? c) && (c <=? 90)
   || (97 <=? c) && (c <=? 122))%N.

Fixpoint compile (p : pystr) : option (list atom) :=
  match p with
  | [] => Some []
  | c :: p' =>
    if (c =? 46)%N then cons AnyChar <$> compile p'
    else if (c =? 92)%N then
      match p' with
      | d :: p'' =>
        if is_ascii_alnum d then None else cons (Lit d) <$> compile p''
      | [] => None
      end
    else if is_meta c then None
    else cons (Lit c) <$> compile p'
  end.

(** Matching under [re.IGNORECASE]; the dot does not match a line feed.
    Case is folded on ASCII letters. *)
Definition atom_matches (a : atom) (c : N) : bool :=
  match a with
  | Lit x => (lower x =? lower c)%N
  | AnyChar => negb (c =? 10)%N
  end.

Fixpoint match_here (p : list atom) (s : pystr) : bool :=
  match p, s with
  | [], _ => true
  | _ :: _, [] => false
  | a :: p', c :: s' => atom_matches a c && match_here p' s'
  end.

(** [re.search]: a match starting at some position of [s]. *)
Fixpoint search (p : list atom) (s : pystr) : bool :=
  match_here p s ||
  match s with
  | [] => false
  | _ :: s' => search p s'
  end.

End Regex.

(** ** Cells, exceptions and the recognisers of pandas *)

(** A cell as [pd.read_csv] delivers it: empty, text, or a number. *)
Inductive cell : Type :=
  | NaN
  | Str (s : pystr)
  | Num (q : Q).

Inductive exn : Type :=
  | ValueError
  | AttributeError.

Inductive result (A : Type) : Type :=
  | Ok (a : A)
  | Raise (e : exn).
Arguments Ok {A} a.
Arguments Raise {A} e.

#[global] Instance result_ret : MRet result := fun _ a => Ok a.
#[global] Instance result_bind : MBind result := fun _ _ f m =>
  match m with
  | Ok a => f a
  | Raise e => Raise e
  end.

(** A [pd.Timestamp]: calendar date and the nanoseconds into the day.  Its
    year has four digits (1677 to 2262). *)
Record Timestamp : Type := mkTimestamp {
  ts_year : N;
  ts_month : N;
  ts_day : N;
  ts_nanos : N
}.

Class PandasParsers : Type := {
  (** the number [pd.to_numeric] reads in a text cell, [None] when it reads
      none *)
  numeric_of_str : pystr -> option Q;
  (** [pd.to_datetime(s, format='%Y년 %m월')]: [None] when it raises,
      [Some None] for NaT *)
  strptime_ym : pystr -> option (option Timestamp);
  (** [pd.to_datetime(s, errors='coerce')], [None] for NaT *)
  to_datetime_coerce : pystr -> option Timestamp
}.

(** ** The table *)

(** One row of the frame [pd.read_csv] returns.  The text columns and the
    date column are object columns: a cell holds a [str] or is empty. *)
Record RawRow : Type := mkRawRow {
  raw_Title : option pystr;
  raw_Subtitle : option pystr;
  raw_Author : option pystr;
  raw_Publisher : option pystr;
  raw_Price : cell;
  raw_Rating : cell;
  raw_Review_Count : cell;
  raw_Sales_Index : cell;
  raw_Publishing_Date : option pystr
}.

(** One row of the prepared table. *)
Record BookRecord : Type := mkBookRecord {
  Title : option pystr;
  Subtitle : option pystr;
  Author : option pystr;
  Publisher : option pystr;
  Price : option Q;
  Rating : option Q;
  Review_Count : option Q;
  Sales_Index : Q;
  Publishing_Date : option Timestamp;
  YearMonth : option pystr
}.

(** The frame: the prepared columns row by row, and the columns a view
    adds by assignment ([df['Price Range'] = ...]), by name. *)
Record DataFrame : Type := mkDataFrame {
  rows : list BookRecord;
  extra : gmap string (list (option pystr))
}.

Definition base_columns : list string :=
  ["Title"; "Subtitle"; "Author"; "Publisher"; "Price"; "Rating";
   "Review Count"; "Sales Index"; "Publishing Date"; "YearMonth"]%string.

Definition columns (df : DataFrame) : gset string :=
  list_to_set base_columns ∪ dom (extra df).

(** ** Data loading ([load_data], lines 18 to 47) *)

Section Loader.
Context `{PandasParsers}.

(** [clean_price]: a [str] is stripped of the separators and of the
    currency marker and handed to [int], which may raise; anything else is
    returned as it is. *)
Definition clean_price (price : cell) : result (option Q) :=
  match price with
  | Str s =>
    match py_int (str_replace (u "원") [] (str_replace (u ",") [] s)) with
    | Some z => Ok (Some (inject_Z z))
    | None => Raise ValueError
    end
  | Num q => Ok (Some q)
  | NaN => Ok None
  end.

(** [Series.apply]: element by element, the first exception ends it. *)
Fixpoint series_apply {A B : Type} (f : A -> result B) (s : list A)
  : result (list B) :=
  match s with
  | [] => Ok []
  | x :: s' => y ← f x; ys ← series_apply f s'; Ok (y :: ys)
  end.

(** [pd.to_numeric(..., errors='coerce')] on one cell. *)
Definition to_numeric_coerce (c : cell) : option Q :=
  match c with
  | NaN => None
  | Num q => Some q
  | Str s => numeric_of_str s
  end.

Definition to_numeric (s : list cell) : list (option Q) :=
  to_numeric_coerce <$> s.

Definition fillna (v : Q) (s : list (option Q)) : list Q :=
  default v <$> s.

(** [parse_date]: the strict format first; whatever it raises is caught and
    the lenient parse is tried.  An empty cell is NaT at once. *)
Definition parse_date (date_str : option pystr) : option Timestamp :=
  match date_str with
  | None => None
  | Some s =>
    match strptime_ym s with
    | Some t => t
    | None => to_datetime_coerce s
    end
  end.

(** A monthly [Period]. *)
Record Period : Type := mkPeriod {
  p_year : N;
  p_month : N
}.

Definition to_period_M (t : option Timestamp) : option Period :=
  (fun t => mkPeriod (ts_year t) (ts_month t)) <$> t.

(** The [.dt] accessor wants a datetime column.  The dates [parse_date]
    returns make one as soon as there is a row; the column of a file
    without rows is an object column, and the accessor raises. *)
Definition dt (col : list (option Timestamp))
  : result (list (option Timestamp)) :=
  match col with
  | [] => Raise AttributeError
  | _ :: _ => Ok col
  end.

Definition digit_char (n : N) : N := (48 + n mod 10)%N.

Definition period_str (p : Period) : pystr :=
  [digit_char (p_year p / 1000); digit_char (p_year p / 100);
   digit_char (p_year p / 10); digit_char (p_year p)]
  ++ u "-" ++ [digit_char (p_month p / 10); digit_char (p_month p)].

(** [astype(str)] on a period column (pandas 2: the result is an object
    column of [str]): every cell becomes a [str], the missing period
    becomes the text NaT. *)
Definition astype_str (p : option Period) : option pystr :=
  match p with
  | Some p => Some (period_str p)
  | None => Some (u "NaT")
  end.

(** The columns put back together, row by row. *)
Definition assemble (raw : list RawRow)
    (price rating review : list (option Q)) (sales : list Q)
    (pdate : list (option Timestamp)) (ym : list (option pystr))
  : list BookRecord :=
  imap (fun i r =>
    {| Title := raw_Title r;
       Subtitle := raw_Subtitle r;
       Author := raw_Author r;
       Publisher := raw_Publisher r;
       Price := mjoin (price !! i);
       Rating := mjoin (rating !! i);
       Review_Count := mjoin (review !! i);
       Sales_Index := default 0%Q (sales !! i);
       Publishing_Date := mjoin (pdate !! i);
       YearMonth := mjoin (ym !! i) |}) raw.

(** The body of [load_data].  [file] is what is found at 'book_data.csv':
    [None] when no file exists, else the frame [pd.read_csv] returns. *)
Definition load_data_body (file : option (list RawRow))
  : result (option DataFrame) :=
  match file with
  | None => Ok None
  | Some raw =>
    price ← series_apply clean_price (raw_Price <$> raw);
    let rating := to_numeric (raw_Rating <$> raw) in
    let review := to_numeric (raw_Review_Count <$> raw) in
    let sales := fillna 0 (to_numeric (raw_Sales_Index <$> raw)) in
    let pdate := parse_date <$> (raw_Publishing_Date <$> raw) in
    dates ← dt pdate;
    let ym := astype_str <$> (to_period_M <$> dates) in
    Ok (Some (mkDataFrame (assemble raw price rating review sales pdate ym) ∅))
  end.

(** What one row of the file becomes, field by field. *)
Definition prepare_row (r : RawRow) (price : option Q) : BookRecord :=
  {| Title := raw_Title r;
     Subtitle := raw_Subtitle r;
     Author := raw_Author r;
     Publisher := raw_Publisher r;
     Price := price;
     Rating := to_numeric_coerce (raw_Rating r);
     Review_Count := to_numeric_coerce (raw_Review_Count r);
     Sales_Index := default 0%Q (to_numeric_coerce (raw_Sales_Index r));
     Publishing_Date := parse_date (raw_Publishing_Date r);
     YearMonth := astype_str (to_period_M (parse_date (raw_Publishing_Date r))) |}.

(** ** The session: [st.cache_data] and the rerun of the script

    [st.cache_data] keeps the pickled return value of [load_data] and hands
    out a new copy on every call.  The heap holds the frames that exist, by
    object identity; the cache holds a value, not an identity. *)

Record Session : Type := mkSession {
  heap : gmap nat DataFrame;
  cache : option (option DataFrame)
}.

Definition unpickle (v : option DataFrame) (s : Session)
  : Session * result (option nat) :=
  match v with
  | None => (s, Ok None)
  | Some d =>
    let l := fresh (dom (heap s)) in
    (mkSession (<[l := d]> (heap s)) (cache s), Ok (Some l))
  end.

(** [load_data()] as the script calls it, through the cache.  A call that
    raises stores nothing. *)
Definition load_data (file : option (list RawRow)) (s : Session)
  : Session * result (option nat) :=
  match cache s with
  | Some v => unpickle v s
  | None =>
    match load_data_body file with
    | Raise e => (s, Raise e)
    | Ok v => unpickle v (mkSession (heap s) (Some v))
    end
  end.

Inductive Menu : Type :=
  | Home
  | Sales
  | PublisherView
  | PriceRating
  | Search.

(** [pd.cut(df['Price'], bins=[0, 15000, 25000, 35000, 50000, 100000],
    labels=...)]: intervals open on the left and closed on the right. *)
Definition cut_price (p : option Q) : option pystr :=
  match p with
  | None => None
  | Some q =>
    if Qle_bool q 0 then None
    else if Qle_bool q 15000 then Some (u "~1.5만")
    else if Qle_bool q 25000 then Some (u "1.5~2.5만")
    else if Qle_bool q 35000 then Some (u "2.5~3.5만")
    else if Qle_bool q 50000 then Some (u "3.5~5.0만")
    else if Qle_bool q 100000 then Some (u "5.0만+")
    else None
  end.

(** [df[name] = values]: the frame object itself is changed. *)
Definition assign (name : string) (values : list (option pystr))
    (df : DataFrame) : DataFrame :=
  mkDataFrame (rows df) (<[name := values]> (extra df)).

(** What a view writes.  Only the Price & Rating view assigns into [df]
    (line 240); the other views build new frames and leave [df] alone. *)
Definition view_effect (menu : Menu) (df : nat) (h : gmap nat DataFrame)
  : gmap nat DataFrame :=
  match menu with
  | PriceRating =>
    alter (fun d => assign "Price Range" (cut_price <$> (Price <$> rows d)) d)
          df h
  | _ => h
  end.

Inductive Outcome : Type :=
  | LoadFailed (e : exn)
  | FileMissing
  | Rendered (menu : Menu) (df : nat).

(** One run of the script: [df = load_data()], the stop when there is no
    file, then the view of the menu. *)
Definition run_script (file : option (list RawRow)) (menu : Menu)
    (s : Session) : Session * Outcome :=
  match load_data file s with
  | (s', Raise e) => (s', LoadFailed e)
  | (s', Ok None) => (s', FileMissing)
  | (s', Ok (Some df)) =>
    (mkSession (view_effect menu df (heap s')) (cache s'), Rendered menu df)
  end.

(** A sequence of interactions, each one a rerun. *)
Fixpoint run_many (file : option (list RawRow)) (menus : list Menu)
    (s : Session) : Session :=
  match menus with
  | [] => s
  | m :: ms => run_many file ms (fst (run_script file m s))
  end.

End Loader.

(** ** Aggregations used by the views *)

Definition dropna {A : Type} (s : list (option A)) : list A := omap (fun x => x) s.

Definition Qsum (l : list Q) : Q := foldr Qplus 0%Q l.

(** [Series.sum()] and [Series.mean()]: missing values are skipped; the
    mean of no value is missing. *)
Definition series_sum (s : list (option Q)) : Q := Qsum (dropna s).

Definition series_mean (s : list (option Q)) : option Q :=
  match dropna s with
  | [] => None
  | l => Some (Qsum l / inject_Z (Z.of_nat (length l)))%Q
  end.

Definition sales_column (rs : list BookRecord) : list (option Q) :=
  (fun r => Some (Sales_Index r)) <$> rs.

(** [groupby(key)]: rows with a missing key are dropped, groups come in
    the order of their keys, rows keep their order inside a group. *)
Fixpoint add_to_group {A : Type} (k : pystr) (x : A)
    (g : list (pystr * list A)) : list (pystr * list A) :=
  match g with
  | [] => [(k, [x])]
  | (k', xs) :: g' =>
    match str_compare k k' with
    | Eq => (k', x :: xs) :: g'
    | Lt => (k, [x]) :: g
    | Gt => (k', xs) :: add_to_group k x g'
    end
  end.

Definition groupby {A : Type} (key : A -> option pystr) (l : list A)
  : list (pystr * list A) :=
  foldr (fun x g =>
           match key x with
           | Some k => add_to_group k x g
           | None => g
           end) [] l.

(** Line 105: [df.groupby('YearMonth').size().reset_index(name='Count')]. *)
Definition monthly_counts (df : DataFrame) : list (pystr * nat) :=
  (fun kg => (fst kg, length (snd kg))) <$> groupby YearMonth (rows df).

(** Line 150 before the final sort:
    [groupby('Publisher')['Sales Index'].mean()], on the rows [rs] of the
    most frequent publishers. *)
Definition publisher_sales_mean (rs : list BookRecord)
  : list (pystr * option Q) :=
  (fun kg => (fst kg, series_mean (sales_column (snd kg))))
    <$> groupby Publisher rs.

(** [nlargest(n, column)] with the default [keep='first']: descending by
    the column, equal values in their order of appearance, the first [n]. *)
Fixpoint insert_desc {A : Type} (key : A -> Q) (x : A) (l : list A) : list A :=
  match l with
  | [] => [x]
  | y :: l' =>
    if Qle_bool (key y) (key x) then x :: y :: l'
    else y :: insert_desc key x l'
  end.

Definition sort_desc {A : Type} (key : A -> Q) (l : list A) : list A :=
  foldr (insert_desc key) [] l.

Definition nlargest {A : Type} (n : nat) (key : A -> Q) (l : list A) : list A :=
  take n (sort_desc key l).

(** Line 123. *)
Definition top_sales (df : DataFrame) : list BookRecord :=
  nlargest 20 Sales_Index (rows df).

(** Boolean indexing [df[mask]]. *)
Fixpoint select {A : Type} (mask : list bool) (l : list A) : list A :=
  match mask, l with
  | b :: m, x :: l' => if b then x :: select m l' else select m l'
  | _, _ => []
  end.

Definition getitem_mask (df : DataFrame) (mask : list bool) : DataFrame :=
  mkDataFrame (select mask (rows df)) (select mask <$> extra df).

(** [Series.str.contains(pat, case=False)]: missing stays missing. *)
Definition str_contains (pat : list Regex.atom) (s : list (option pystr))
  : list (option bool) :=
  (fun c : option pystr => Regex.search pat <$> c) <$> s.

Definition fillna_str (v : pystr) (s : list (option pystr))
  : list (option pystr) :=
  (fun c => Some (default v c)) <$> s.

(** [a | b] on two mask columns as pandas 2 evaluates it on an object
    column: where a side is missing the result is missing, and a missing
    result counts as False. *)
Definition or_mask (a b : option bool) : bool :=
  match a, b with
  | Some x, Some y => x || y
  | _, _ => false
  end.

(** Lines 260 to 263.  [None]: the keyword is a pattern outside the
    modelled fragment. *)
Definition keyword_filter (keyword : pystr) (df : DataFrame)
  : option DataFrame :=
  match keyword with
  | [] => Some df
  | _ :: _ =>
    pat ← Regex.compile keyword;
    Some (getitem_mask df
            (zip_with or_mask
               (str_contains pat (Title <$> rows df))
               (str_contains pat (fillna_str [] (Subtitle <$> rows df)))))
  end.

(** ** Correlation (line 230), over the reals *)

Definition Rsum (l : list R) : R := foldr Rplus 0%R l.

Definition Rmean (l : list R) : R := (Rsum l / INR (length l))%R.

(** Sum of the products of the deviations of two coordinates. *)
Definition co_dev (f g : R * R -> R) (ps : list (R * R)) : R :=
  Rsum ((fun p => (f p - Rmean (f <$> ps)) * (g p - Rmean (g <$> ps)))%R
          <$> ps).

(** Pearson's coefficient of a list of pairs; missing with no pair or when
    a coordinate does not vary. *)
Definition pearson (ps : list (R * R)) : option R :=
  match ps with
  | [] => None
  | _ :: _ =>
    let d := sqrt (co_dev fst fst ps * co_dev snd snd ps) in
    if Req_dec_T d 0 then None else Some (co_dev fst snd ps / d)%R
  end.

(** The rows of two columns where both hold a value. *)
Definition complete_pairs (xs ys : list (option Q)) : list (R * R) :=
  omap (fun xy =>
          match xy with
          | (Some x, Some y) => Some (Q2R x, Q2R y)
          | _ => None
          end) (zip xs ys).

Definition numeric_fields : list (BookRecord -> option Q) :=
  [Price; Rating; Review_Count; fun r => Some (Sales_Index r)].

(** [df[['Price', 'Rating', 'Review Count', 'Sales Index']].corr()]. *)
Definition corr (df : DataFrame) : list (list (option R)) :=
  (fun f =>
     (fun g => pearson (complete_pairs (f <$> rows df) (g <$> rows df)))
       <$> numeric_fields)
    <$> numeric_fields.

(** ** Recognisers to run the examples with

    Plain decimals for numbers, the exact shape 'YYYY년 MM월' for the strict
    date format, and a lenient date parse that recognises nothing. *)

Module Sample.

Fixpoint all_digits (s : pystr) (acc : Z) : option Z :=
  match s with
  | [] => Some acc
  | c :: s' =>
    if is_digit c then all_digits s' (10 * acc + digit_val c) else None
  end.

Fixpoint split_dot (s : pystr) : pystr * pystr :=
  match s with
  | [] => ([], [])
  | c :: s' =>
    if (c =? 46)%N then ([], s')
    else let '(a, b) := split_dot s' in (c :: a, b)
  end.

Definition decimal_of_str (s : pystr) : option Q :=
  let s := strip s in
  let '(neg, body) :=
    match s with
    | c :: r => if (c =? 45)%N then (true, r) else (false, s)
    | [] => (false, s)
    end in
  let '(ip, fp) := split_dot body in
  match ip with
  | [] => None
  | _ :: _ =>
    i ← all_digits ip 0;
    f ← all_digits fp 0;
    let den := (10 ^ Z.of_nat (length fp))%Z in
    let q := Qred (Qmake (i * den + f) (Z.to_pos den)) in
    Some (if neg then Qopp q else q)
  end.

Definition year_month (s : pystr) : option (option Timestamp) :=
  match s with
  | [y1; y2; y3; y4; nyeon; sp; m1; m2; wol] =>
    if forallb is_digit [y1; y2; y3; y4; m1; m2]
       && (nyeon =? 45380)%N && (sp =? 32)%N && (wol =? 50900)%N
    then
      let y := Z.to_N (1000 * digit_val y1 + 100 * digit_val y2
                       + 10 * digit_val y3 + digit_val y4) in
      let m := Z.to_N (10 * digit_val m1 + digit_val m2) in
      if ((1 <=? m) && (m <=? 12))%N
      then Some (Some (mkTimestamp y m 1 0))
      else None
    else None
  | _ => None
  end.

#[export] Instance parsers : PandasParsers := {
  numeric_of_str := decimal_of_str;
  strptime_ym := year_month;
  to_datetime_coerce := fun _ => None
}.

Definition book (title : string) (subtitle : option string)
    (price rating reviews sales : cell) (date : option string) : RawRow :=
  {| raw_Title := Some (u title);
     raw_Subtitle := u <$> subtitle;
     raw_Author := Some (u "저자");
     raw_Publisher := Some (u "한빛미디어");
     raw_Price := price;
     raw_Rating := rating;
     raw_Review_Count := reviews;
     raw_Sales_Index := sales;
     raw_Publishing_Date := u <$> date |}.

(** Three rows with text prices; the second price is no number, the third
    date is no date. *)
Definition csv_bad_price : list RawRow :=
  [book "AI 입문" None (Str (u "15,000원")) (Num (19 # 2)) (Num 12)
        (Num 3000) (Some "2023년 05월");
   book "파이썬" (Some "with AI") (Str (u "가격미정")) (Num 8)
        (Num 3) (Num 150) (Some "2022년 11월");
   book "C 언어" None (Str (u "22,000원")) (Num (15 # 2)) (Num 40)
        (Num 990) (Some "출간일 미정")].

(** A row with a rating of 11, and a row without rating, sales index and
    date. *)
Definition row_rating_11 : RawRow :=
  book "AI 입문" None (Num 15000) (Num 11) (Num 12) (Num 3000)
       (Some "2023년 05월").

Definition row_gaps : RawRow :=
  book "파이썬" (Some "with AI") (Num 28000) NaN (Num 3) NaN None.

(** Three rows with numeric columns: these two, and one without review
    count. *)
Definition csv_ok : list RawRow :=
  [row_rating_11; row_gaps;
   book "C 언어" None (Num 22000) (Num (15 # 2)) NaN (Num 990)
        (Some "2023년 05월")].

Definition row_text_sales : RawRow :=
  book "파이썬" None (Num 28000) (Num 8) (Num 3) (Str (u "미집계"))
       (Some "2022년 11월").

(** Three rows whose sales column is text; the second is not numeric, the
    third is empty. *)
Definition csv_text_sales : list RawRow :=
  [book "AI 입문" None (Num 15000) (Num 9) (Num 12) (Str (u "3000"))
        (Some "2023년 05월");
   row_text_sales;
   book "C 언어" None (Num 22000) (Num 7) (Num 40) NaN
        (Some "2021년 01월")].

End Sample.

(** ** Notions used in the statements *)

(** The rows of one group, the count of one key. *)
Fixpoint group_of {A : Type} (k : pystr) (g : list (pystr * list A)) : list A :=
  match g with
  | [] => []
  | (k', xs) :: g' => if decide (k = k') then xs else group_of k g'
  end.

Fixpoint count_of (k : pystr) (g : list (pystr * nat)) : nat :=
  match g with
  | [] => 0
  | (k', n) :: g' => if decide (k = k') then n else count_of k g'
  end.

Definition missing {A : Type} (o : option A) : bool :=
  match o with
  | None => true
  | Some _ => false
  end.

(** The frame a successful load returns (the empty frame otherwise). *)
Definition loaded `{PandasParsers} (raw : list RawRow) : DataFrame :=
  match load_data_body (Some raw) with
  | Ok (Some df) => df
  | _ => mkDataFrame [] ∅
  end.

(** A cell in which [pd.to_numeric] finds no number: empty, or text that
    is not numeric. *)
Definition unreadable `{PandasParsers} (c : cell) : Prop :=
  c = NaN \/ exists s, c = Str s /\ numeric_of_str s = None.

(** The keyword occurs in [s] as a literal substring, letter case apart. *)
Definition occurs_ci (kw s : pystr) : Prop :=
  exists pre mid post, s = pre ++ mid ++ post /\ lower <$> mid = lower <$> kw.

(** Descending by a key. *)
Definition descending {A : Type} (key : A -> Q) (l : list A) : Prop :=
  StronglySorted (fun a b => (key b <= key a)%Q) l.

(** Group keys in strictly ascending order, and the rows in all groups. *)
Definition keys_ascending {A : Type} (g : list (pystr * list A)) : Prop :=
  StronglySorted (fun a b => str_compare (fst a) (fst b) = Lt) g.

Definition total_size {A : Type} (g : list (pystr * list A)) : nat :=
  sum_list (length <$> (snd <$> g)).

(** The mask of one row under a compiled pattern. *)
Definition row_mask (pat : list Regex.atom) (r : BookRecord) : bool :=
  or_mask (Regex.search pat <$> Title r)
          (Some (Regex.search pat (default [] (Subtitle r)))).

(** Entry of the correlation matrix at row [i], column [j]. *)
Definition entry (df : DataFrame) (i j : nat) : option (option R) :=
  corr df !! i ≫= fun row => row !! j.

(** The pair of values of a row, when it has both. *)
Definition both (f g : BookRecord -> option Q) (r : BookRecord)
  : option (R * R) :=
  match f r, g r with
  | Some x, Some y => Some (Q2R x, Q2R y)
  | _, _ => None
  end.

(** Sum of the squared deviations of the present values of a column: zero
    exactly when the column has no variance. *)
Definition spread (xs : list (option Q)) : R :=
  let vs := Q2R <$> dropna xs in
  Rsum ((fun v => (v - Rmean vs) * (v - Rmean vs))%R <$> vs).

(** The rows that hold a value in every numeric column. *)
Definition complete_rows (rs : list BookRecord) : list BookRecord :=
  List.filter (fun r => forallb (fun f : BookRecord -> option Q =>
                                   negb (missing (f r))) numeric_fields) rs.

(** What the view of [menu] leaves in the frame it was given. *)
Definition after_view (menu : Menu) (t : DataFrame) : DataFrame :=
  match menu with
  | PriceRating => assign "Price Range" (cut_price <$> (Price <$> rows t)) t
  | _ => t
  end.

(** ** The rest of the script: navigation, the publisher view, the price
    buckets, the search view *)

(** [sub in s] on two [str]. *)
Fixpoint str_in (sub s : pystr) : bool :=
  starts_with sub s ||
  match s with
  | [] => false
  | _ :: s' => str_in sub s'
  end.

(** [sep.join(parts)]. *)
Fixpoint join (sep : pystr) (parts : list pystr) : pystr :=
  match parts with
  | [] => []
  | [p] => p
  | p :: ps => p ++ sep ++ join sep ps
  end.

(** The options of the sidebar radio (lines 62 to 65), and the chain of
    substring tests that picks the page (lines 75, 114, 158, 208, 250). *)
Definition menu_options : list pystr :=
  [u "홈 (Home)"; u "판매 및 랭킹 (Sales)"; u "출판사 분석 (Publisher)";
   u "가격 및 평점 (Price & Rating)"; u "키워드 검색 (Search)"].

Definition dispatch (menu : pystr) : option Menu :=
  if str_in (u "홈") menu then Some Home
  else if str_in (u "판매") menu then Some Sales
  else if str_in (u "출판사") menu then Some PublisherView
  else if str_in (u "가격") menu then Some PriceRating
  else if str_in (u "키워드") menu then Some Search
  else None.

(** A session in which the file may change between two runs. *)
Fixpoint run_session `{PandasParsers}
    (steps : list (option (list RawRow) * Menu)) (s : Session) : Session :=
  match steps with
  | [] => s
  | (file, m) :: rest => run_session rest (fst (run_script file m s))
  end.

(** [Series.unique()]: the values in their order of first appearance, a
    missing value once. *)
Fixpoint unique (l : list (option pystr)) : list (option pystr) :=
  match l with
  | [] => []
  | x :: l' => x :: filter (fun y => y <> x) (unique l')
  end.

(** [sorted] on a list of [str] and NaN.  Comparing a [str] with a float
    raises TypeError ([None]); a list of one kind is put in ascending
    order. *)
Fixpoint insert_asc (x : pystr) (l : list pystr) : list pystr :=
  match l with
  | [] => [x]
  | y :: l' =>
    match str_compare x y with
    | Gt => y :: insert_asc x l'
    | _ => x :: y :: l'
    end
  end.

Definition py_sorted (l : list (option pystr)) : option (list (option pystr)) :=
  match dropna l with
  | [] => Some l
  | present =>
    if decide (length present = length l)
    then Some (Some <$> foldr insert_asc [] present)
    else None
  end.

(** Lines 162 and 163: the options of the publisher select box. *)
Definition publisher_options (df : DataFrame) : option (list (option pystr)) :=
  py_sorted (unique (Publisher <$> rows df)).

(** Line 165: [df[df['Publisher'] == selected_publisher]]; a missing value
    equals nothing. *)
Definition pub_df (selected : option pystr) (rs : list BookRecord)
  : list BookRecord :=
  match selected with
  | Some p => filter (fun r => Publisher r = Some p) rs
  | None => []
  end.

(** Lines 199 to 205: the trend of the publisher, or the warning when the
    grouped frame is empty. *)
Inductive Trend : Type :=
  | TrendChart (data : list (pystr * nat))
  | TrendWarning.

Definition pub_trend (selected : option pystr) (rs : list BookRecord)
  : Trend :=
  match (fun kg => (fst kg, length (snd kg)))
          <$> groupby YearMonth (pub_df selected rs) with
  | [] => TrendWarning
  | data => TrendChart data
  end.

(** Lines 149 and 150 before the final sort, for the publishers
    [top_pubs] that line 148 picked. *)
Definition isin (top_pubs : list pystr) (rs : list BookRecord)
  : list BookRecord :=
  filter (fun r => Publisher r ∈ (Some <$> top_pubs)) rs.

Definition avg_sales (top_pubs : list pystr) (rs : list BookRecord)
  : list (pystr * option Q) :=
  publisher_sales_mean (isin top_pubs rs).

(** Lines 240 to 242.  The bins and labels of [pd.cut], and the grouping
    by the categorical column: with pandas 2 every category has its row,
    in the order of the labels, an empty one with a missing mean. *)
Definition price_bins : list Q := [0; 15000; 25000; 35000; 50000; 100000]%Q.

Definition price_labels : list pystr :=
  [u "~1.5만"; u "1.5~2.5만"; u "2.5~3.5만"; u "3.5~5.0만"; u "5.0만+"].

Definition price_sales (rs : list BookRecord) : list (pystr * option Q) :=
  (fun lab =>
     (lab, series_mean (sales_column
             (filter (fun r => cut_price (Price r) = Some lab) rs))))
    <$> price_labels.

(** Line 303: the five best-selling rows of the search result. *)
Definition top_search (filtered : DataFrame) : list BookRecord :=
  nlargest 5 Sales_Index (rows filtered).

(** Line 276: [re.findall(r'[가-힣a-zA-Z0-9]+', text)], the maximal runs of
    Hangul syllables, ASCII letters and digits.  [cur] is the run being
    read. *)
Definition is_word_char (c : N) : bool :=
  ((44032 <=? c) && (c <=? 55203) || (97 <=? c) && (c <=? 122)
   || (65 <=? c) && (c <=? 90) || (48 <=? c) && (c <=? 57))%N.

Fixpoint runs_go (s cur : pystr) : list pystr :=
  match s with
  | [] =>
    match cur with
    | [] => []
    | _ :: _ => [cur]
    end
  | c :: s' =>
    if is_word_char c then runs_go s' (cur ++ [c])
    else
      match cur with
      | [] => runs_go s' []
      | _ :: _ => cur :: runs_go s' []
      end
  end.

Definition findall_words (text : pystr) : list pystr := runs_go text [].

(** Lines 274 to 278. *)
Definition stopwords : list pystr :=
  [u "부제"; u "없음"; u "Guide"; u "가이드"; u "완벽"; u "실전"; u "입문";
   u "기초"; u "활용"; u "저자"; u "옮김"; u "지음"; u "코딩"].

Definition keep_word (w : pystr) : bool :=
  bool_decide (w ∉ stopwords) && bool_decide (1 < length w).

Definition row_text (r : BookRecord) : pystr :=
  default [] (Title r) ++ u " " ++ default [] (Subtitle r).

Definition cloud_text (rs : list BookRecord) : pystr :=
  join (u " ") (row_text <$> rs).

Definition cloud_words (rs : list BookRecord) : list pystr :=
  List.filter keep_word (findall_words (cloud_text rs)).

(** Lines 273 to 290: what the word cloud tab shows. *)
Inductive CloudTab : Type :=
  | Cloud (words : list pystr)
  | NotEnoughText
  | NoResults.

Definition word_cloud_tab (filtered : DataFrame) : CloudTab :=
  match rows filtered with
  | [] => NoResults
  | _ :: _ =>
    match cloud_words (rows filtered) with
    | [] => NotEnoughText
    | ws => Cloud ws
    end
  end.

(** The decimal value of a string of digits, and the characters of a
    price as the shop writes it. *)
Definition decimal_value (ds : pystr) : Z :=
  fold_left (fun acc c => 10 * acc + digit_val c)%Z ds 0%Z.

Definition price_char (c : N) : Prop :=
  is_digit c = true \/ c = 44%N \/ c = 50896%N.

(** A price in the interval from [lo], excluded, to [hi], included. *)
Definition in_bucket (lo hi : Q) (p : option Q) : bool :=
  match p with
  | Some q => negb (Qle_bool q lo) && Qle_bool q hi
  | None => false
  end.

(** Two patterns that match the same characters, atom by atom. *)
Definition same_atoms (p p' : list Regex.atom) : Prop :=
  Forall2 (fun a b => forall c, Regex.atom_matches a c = Regex.atom_matches b c)
          p p'.

(** Three rows; the date of the second is no date. *)
Definition row_bad_date : RawRow :=
  Sample.book "파이썬" (Some "with AI") (Num 28000) (Num 8) (Num 3) (Num 150)
              (Some "출간일 미정").

Definition csv_bad_date : list RawRow :=
  [Sample.row_rating_11; row_bad_date;
   Sample.book "C 언어" None (Num 22000) (Num 7) (Num 40) (Num 990)
               (Some "2021년 01월")].

(** * Properties *)

(** ** The loader, row by row *)

Section LoaderFacts.
Context `{PandasParsers}.

Lemma series_apply_Forall2 {A B : Type} (f : A -> result B) (s : list A)
    (ys : list B) :
  series_apply f s = Ok ys -> Forall2 (fun x y => f x = Ok y) s ys.
Proof.
  revert ys. induction s as [|x s IH]; intros ys Hs; simpl in Hs.
  - injection Hs as <-. constructor.
  - destruct (f x) as [y|e] eqn:Hfx; simpl in Hs; [|discriminate].
    destruct (series_apply f s) as [ys'|e] eqn:Hrec; simpl in Hs;
      [|discriminate].
    injection Hs as <-. constructor; [done|]. by apply IH.
Qed.

(** When one element makes [f] raise, the whole [apply] raises, with the
    exception of some element. *)
Lemma series_apply_raise {A B : Type} (f : A -> result B) (s : list A)
    (i : nat) (x : A) (e : exn) :
  s !! i = Some x -> f x = Raise e ->
  exists y e', y ∈ s /\ f y = Raise e' /\ series_apply f s = Raise e'.
Proof.
  revert i. induction s as [|y s IH]; intros i Hi Hx; [done|].
  simpl. destruct i as [|i]; simpl in Hi.
  - injection Hi as ->. rewrite Hx. exists x, e. split; [by left|done].
  - destruct (f y) as [b|e0] eqn:Hy; simpl.
    + destruct (IH i Hi Hx) as (z & e' & Hz & Hfz & ->).
      exists z, e'. split; [by right|done].
    + exists y, e0. split; [by left|done].
Qed.

Lemma series_apply_ok {A B : Type} (f : A -> result B) (s : list A) :
  (forall x, x ∈ s -> exists y, f x = Ok y) ->
  exists ys, series_apply f s = Ok ys.
Proof.
  induction s as [|x s IH]; intros Hall; [by exists []|].
  destruct (Hall x) as [y Hy]; [by left|].
  destruct IH as [ys Hys]; [intros z Hz; apply Hall; by right|].
  exists (y :: ys). simpl. by rewrite Hy, Hys.
Qed.

(** The assembled rows are the rows of the file, each prepared on its own. *)
Lemma assemble_prepare (raw : list RawRow) (price : list (option Q)) :
  assemble raw price
    (to_numeric (raw_Rating <$> raw))
    (to_numeric (raw_Review_Count <$> raw))
    (fillna 0 (to_numeric (raw_Sales_Index <$> raw)))
    (parse_date <$> (raw_Publishing_Date <$> raw))
    (astype_str <$> (to_period_M <$> (parse_date <$> (raw_Publishing_Date <$> raw))))
  = imap (fun i r => prepare_row r (mjoin (price !! i))) raw.
Proof.
  unfold assemble. apply list_eq. intros i.
  rewrite !list_lookup_imap.
  destruct (raw !! i) as [r|] eqn:Hr; [|done]. simpl. f_equal.
  unfold prepare_row, to_numeric, fillna.
  rewrite !list_lookup_fmap, Hr. done.
Qed.

Lemma dt_ok (col col' : list (option Timestamp)) :
  dt col = Ok col' -> col' = col.
Proof. destruct col; [discriminate|]. by intros [= <-]. Qed.

Lemma load_data_body_rows (raw : list RawRow) (df : DataFrame) :
  load_data_body (Some raw) = Ok (Some df) ->
  extra df = ∅ /\
  Forall2 (fun r b => exists p, clean_price (raw_Price r) = Ok p
                                /\ b = prepare_row r p) raw (rows df).
Proof.
  unfold load_data_body.
  destruct (series_apply clean_price (raw_Price <$> raw)) as [price|e] eqn:Hp;
    simpl; [|discriminate].
  destruct (dt (parse_date <$> (raw_Publishing_Date <$> raw)))
    as [dates|e] eqn:Hdt; simpl; [|discriminate].
  apply dt_ok in Hdt as ->.
  intros [= <-]. simpl. split; [done|].
  rewrite assemble_prepare.
  apply series_apply_Forall2 in Hp.
  apply Forall2_same_length_lookup. split.
  - by rewrite length_imap.
  - intros i r b Hr Hb. rewrite list_lookup_imap, Hr in Hb.
    injection Hb as <-.
    assert (length (raw_Price <$> raw) = length price) as Hlen
      by (by eapply Forall2_length).
    destruct (price !! i) as [p|] eqn:Hpi.
    + exists p. split; [|done].
      eapply (Forall2_lookup_lr _ _ _ i) in Hp; [exact Hp| |exact Hpi].
      by rewrite list_lookup_fmap, Hr.
    + apply lookup_ge_None in Hpi. apply lookup_lt_Some in Hr.
      rewrite length_fmap in Hlen. lia.
Qed.

Lemma load_data_body_length (raw : list RawRow) (df : DataFrame) :
  load_data_body (Some raw) = Ok (Some df) -> length (rows df) = length raw.
Proof.
  intros Hl. apply load_data_body_rows in Hl as [_ Hl].
  symmetry. by eapply Forall2_length.
Qed.

(** The load of a file with rows succeeds as soon as [int] accepts every
    text price. *)
Lemma load_data_body_ok (raw : list RawRow) :
  raw <> [] ->
  (forall r, r ∈ raw -> exists p, clean_price (raw_Price r) = Ok p) ->
  exists df, load_data_body (Some raw) = Ok (Some df).
Proof.
  intros Hne Hall. unfold load_data_body.
  destruct (series_apply_ok clean_price (raw_Price <$> raw)) as [ps ->].
  - intros c Hc. apply list_elem_of_fmap in Hc as (r & -> & Hr). by apply Hall.
  - destruct raw as [|r raw]; [done|]. simpl. eauto.
Qed.

Example clean_price_text :
  clean_price (Str (u "15,000원")) = Ok (Some 15000%Q).
Proof. reflexivity. Qed.

Example clean_price_number : clean_price (Num 15000) = Ok (Some 15000%Q).
Proof. reflexivity. Qed.

Example clean_price_residue : clean_price (Str (u "15,000 KRW")) = Raise ValueError.
Proof. reflexivity. Qed.

Lemma clean_price_raises (c : cell) (e : exn) :
  clean_price c = Raise e -> e = ValueError.
Proof.
  destruct c as [|s|q]; simpl; try discriminate.
  destruct (py_int _); [discriminate|]. by intros [= <-].
Qed.

End LoaderFacts.

(** ** Grouping *)

Section Grouping.

Lemma str_compare_eq (a b : pystr) : str_compare a b = Eq <-> a = b.
Proof.
  revert b. induction a as [|x a IH]; intros [|y b]; simpl; try done.
  destruct (N.compare_spec x y) as [->|Hlt|Hgt].
  - rewrite IH. split; [by intros ->|by intros [= ->]].
  - split; [done|]. intros [= -> _]. lia.
  - split; [done|]. intros [= -> _]. lia.
Qed.

Lemma str_compare_antisym (a b : pystr) :
  str_compare b a = CompOpp (str_compare a b).
Proof.
  revert b. induction a as [|x a IH]; intros [|y b]; simpl; try done.
  rewrite (N.compare_antisym x y).
  destruct (x ?= y)%N; simpl; [apply IH|done|done].
Qed.

Lemma str_compare_lt_trans (a b c : pystr) :
  str_compare a b = Lt -> str_compare b c = Lt -> str_compare a c = Lt.
Proof.
  revert b c. induction a as [|x a IH]; intros [|y b] [|z c]; simpl;
    try done.
  destruct (N.compare_spec x y) as [->|Hxy|Hxy]; [| |done].
  - destruct (y ?= z)%N; [apply IH|done|done].
  - intros _. destruct (N.compare_spec y z) as [->|Hyz|Hyz]; [| |done].
    + intros _. by rewrite (proj2 (N.compare_lt_iff x z) Hxy).
    + intros _. by rewrite (proj2 (N.compare_lt_iff x z) (N.lt_trans _ _ _ Hxy Hyz)).
Qed.

Context {A : Type}.
Implicit Types (g : list (pystr * list A)) (k : pystr) (x : A).

Lemma add_to_group_keys k x g kg :
  kg ∈ add_to_group k x g -> fst kg = k \/ exists kg', kg' ∈ g /\ fst kg' = fst kg.
Proof.
  induction g as [|[k' xs] g IH]; simpl.
  - intros ->%list_elem_of_singleton. by left.
  - destruct (str_compare k k') eqn:Hc.
    + intros [->|Hin]%elem_of_cons.
      * right. exists (k', xs). split; [by left|done].
      * right. exists kg. split; [by right|done].
    + intros [->|Hin]%elem_of_cons; [by left|]. right. by exists kg.
    + intros [->|Hin]%elem_of_cons.
      * right. exists (k', xs). split; [by left|done].
      * destruct (IH Hin) as [?|(kg' & ? & ?)]; [by left|].
        right. exists kg'. split; [by right|done].
Qed.

Lemma add_to_group_ascending k x g :
  keys_ascending g -> keys_ascending (add_to_group k x g).
Proof.
  unfold keys_ascending.
  induction g as [|[k' xs] g IH]; simpl; intros Hs.
  - repeat constructor.
  - apply StronglySorted_inv in Hs as [Hs Hall].
    destruct (str_compare k k') eqn:Hc.
    + constructor; [done|]. exact Hall.
    + constructor; [by constructor|]. constructor; [done|].
      eapply Forall_impl; [exact Hall|]. intros kg Hkg. simpl in *.
      by eapply str_compare_lt_trans.
    + constructor; [by apply IH|].
      apply Forall_forall. intros kg Hin.
      destruct (add_to_group_keys _ _ _ _ Hin) as [->|(kg' & Hin' & <-)].
      * simpl. rewrite str_compare_antisym, Hc. done.
      * rewrite Forall_forall in Hall. by apply Hall.
Qed.

Lemma groupby_ascending (key : A -> option pystr) (l : list A) :
  keys_ascending (groupby key l).
Proof.
  induction l as [|x l IH]; simpl; [constructor|].
  destruct (key x); [by apply add_to_group_ascending|done].
Qed.

Lemma group_of_above k g :
  Forall (fun kg => str_compare k (fst kg) = Lt) g -> group_of k g = [].
Proof.
  induction g as [|[k' xs] g IH]; [done|].
  intros [Hk Hg]%Forall_cons. simpl in *.
  destruct (decide (k = k')) as [->|_]; [|by apply IH].
  assert (str_compare k' k' = Eq) as Heq by (by apply str_compare_eq).
  congruence.
Qed.

Lemma group_of_add k k' x g :
  keys_ascending g ->
  group_of k (add_to_group k' x g)
  = if decide (k = k') then x :: group_of k g else group_of k g.
Proof.
  unfold keys_ascending.
  induction g as [|[k0 xs] g IH]; simpl; intros Hs.
  - by destruct (decide (k = k')).
  - apply StronglySorted_inv in Hs as [Hs Hall]. simpl in Hall.
    destruct (str_compare k' k0) eqn:Hc; simpl.
    + apply str_compare_eq in Hc as ->.
      destruct (decide (k = k0)); [done|done].
    + destruct (decide (k = k')) as [->|Hne]; [|done].
      destruct (decide (k' = k0)) as [->|_].
      * assert (str_compare k0 k0 = Eq) by (by apply str_compare_eq).
        congruence.
      * rewrite group_of_above; [done|].
        eapply Forall_impl; [exact Hall|]. intros kg Hkg. simpl in *.
        by eapply str_compare_lt_trans.
    + destruct (decide (k = k0)) as [->|Hne].
      * destruct (decide (k0 = k')) as [->|_]; [|done].
        assert (str_compare k' k' = Eq) by (by apply str_compare_eq).
        congruence.
      * by apply IH.
Qed.

(** A group holds the rows of its key, in the order of the table. *)
Lemma group_of_groupby (key : A -> option pystr) k (l : list A) :
  group_of k (groupby key l) = filter (fun x => key x = Some k) l.
Proof.
  induction l as [|x l IH]; [done|]. simpl.
  destruct (key x) as [k'|] eqn:Hk.
  - rewrite group_of_add by apply groupby_ascending. rewrite IH.
    destruct (decide (k = k')) as [->|Hne].
    + by rewrite filter_cons_True.
    + by rewrite filter_cons_False by congruence.
  - rewrite IH. by rewrite filter_cons_False by congruence.
Qed.

Lemma total_size_add k x g : total_size (add_to_group k x g) = S (total_size g).
Proof.
  unfold total_size.
  induction g as [|[k' xs] g IH]; [done|].
  cbn [add_to_group]. destruct (str_compare k k'); rewrite ?fmap_cons;
    cbn [sum_list snd length]; [done|done|].
  rewrite IH. lia.
Qed.

(** Grouping loses exactly the rows whose key is missing. *)
Lemma total_size_groupby (key : A -> option pystr) (l : list A) :
  total_size (groupby key l) = length (dropna (key <$> l)).
Proof.
  induction l as [|x l IH]; [done|]. simpl.
  destruct (key x) as [k|]; simpl.
  - rewrite total_size_add. unfold dropna in IH. by rewrite IH.
  - exact IH.
Qed.

Lemma count_of_sizes k g :
  count_of k ((fun kg => (fst kg, length (snd kg))) <$> g)
  = length (group_of k g).
Proof.
  induction g as [|[k' xs] g IH]; [done|]. simpl.
  by destruct (decide (k = k')).
Qed.

End Grouping.

(** ** Loading: prices, dates and the month key *)

Section LoadClaims.
Context `{PandasParsers}.

Lemma loaded_row_inv (raw : list RawRow) (df : DataFrame) (b : BookRecord) :
  load_data_body (Some raw) = Ok (Some df) -> b ∈ rows df ->
  exists r p, r ∈ raw /\ clean_price (raw_Price r) = Ok p /\ b = prepare_row r p.
Proof.
  intros Hl Hb. apply load_data_body_rows in Hl as [_ Hl].
  apply list_elem_of_lookup in Hb as [i Hi].
  destruct (Forall2_lookup_r _ _ _ _ _ Hl Hi) as (r & Hr & p & Hp & ->).
  exists r, p. split; [|done]. apply list_elem_of_lookup. by exists i.
Qed.

(** A text price that [int] rejects ends the whole load: no table is
    returned, whatever the other rows hold. *)
Lemma load_raises_on_bad_price (raw : list RawRow) (i : nat) (r : RawRow)
    (s : pystr) :
  raw !! i = Some r -> raw_Price r = Str s ->
  py_int (str_replace (u "원") [] (str_replace (u ",") [] s)) = None ->
  load_data_body (Some raw) = Raise ValueError.
Proof.
  intros Hr Hs Hint. unfold load_data_body.
  destruct (series_apply_raise clean_price (raw_Price <$> raw) i (Str s)
              ValueError) as (c & e & _ & He & ->).
  - by rewrite list_lookup_fmap, Hr, <- Hs.
  - unfold clean_price. by rewrite Hint.
  - apply clean_price_raises in He as ->. done.
Qed.

(** A date that neither parse recognises costs the row nothing but the
    date: this path does recover. *)
Lemma unparsed_date_keeps_row (raw : list RawRow) (df : DataFrame) (i : nat)
    (r : RawRow) (s : pystr) :
  load_data_body (Some raw) = Ok (Some df) ->
  raw !! i = Some r -> raw_Publishing_Date r = Some s ->
  strptime_ym s = None -> to_datetime_coerce s = None ->
  exists b, rows df !! i = Some b /\ Publishing_Date b = None
            /\ Title b = raw_Title r /\ Rating b = to_numeric_coerce (raw_Rating r).
Proof.
  intros Hl Hr Hs Hstrict Hlen.
  apply load_data_body_rows in Hl as [_ Hl].
  destruct (Forall2_lookup_l _ _ _ _ _ Hl Hr) as (b & Hb & p & _ & ->).
  exists (prepare_row r p). split; [done|]. simpl.
  by rewrite Hs; simpl; rewrite Hstrict, Hlen.
Qed.

(** C1 (the code at the failing input): in a three-row file whose second
    price is the text 가격미정, [load_data] raises ValueError; the run ends
    with no table, none of the three rows is retained and nothing is
    cached. *)
Theorem C1_malformed_price_aborts_load :
  load_data_body (Some Sample.csv_bad_price) = Raise ValueError
  /\ run_script (Some Sample.csv_bad_price) Home (mkSession ∅ None)
     = (mkSession ∅ None, LoadFailed ValueError).
Proof.
  assert (load_data_body (Some Sample.csv_bad_price) = Raise ValueError) as Hl.
  { eapply (load_raises_on_bad_price _ 1 _ (u "가격미정")); reflexivity. }
  split; [exact Hl|].
  unfold run_script, load_data. simpl cache. by rewrite Hl.
Qed.

Lemma period_str_not_NaT (p : Period) : period_str p <> u "NaT".
Proof. unfold period_str. intros Heq. vm_compute in Heq. congruence. Qed.

Lemma prepared_yearmonth (r : RawRow) (p : option Q) :
  YearMonth (prepare_row r p)
  = Some (match Publishing_Date (prepare_row r p) with
          | Some t => period_str (mkPeriod (ts_year t) (ts_month t))
          | None => u "NaT"
          end).
Proof. simpl. by destruct (parse_date (raw_Publishing_Date r)). Qed.


End LoadClaims.

Section LoadWitnesses.
Local Existing Instance Sample.parsers.



End LoadWitnesses.

(** ** Numeric coercion: ratings, review counts and the sales index *)

Section Means.

Lemma Qsum_app (l1 l2 : list Q) : (Qsum (l1 ++ l2) == Qsum l1 + Qsum l2)%Q.
Proof.
  induction l1 as [|q l1 IH]; simpl.
  - by rewrite Qplus_0_l.
  - rewrite IH. apply Qplus_assoc.
Qed.

Lemma Qsum_insert_zero (l1 l2 : list Q) (z : Q) :
  z = 0%Q -> (Qsum (l1 ++ z :: l2) == Qsum (l1 ++ l2))%Q.
Proof.
  intros ->. rewrite !Qsum_app. simpl. by rewrite Qplus_0_l.
Qed.

Lemma dropna_sales (rs : list BookRecord) :
  dropna (sales_column rs) = Sales_Index <$> rs.
Proof.
  unfold dropna, sales_column.
  induction rs as [|b rs IH]; [done|]. simpl. f_equal. exact IH.
Qed.

(** The sales mean divides by the number of rows: no row is skipped. *)
Lemma sales_mean_all_rows (b : BookRecord) (rs : list BookRecord) :
  series_mean (sales_column (b :: rs))
  = Some (Qsum (Sales_Index <$> (b :: rs))
          / inject_Z (Z.of_nat (length (b :: rs))))%Q.
Proof.
  unfold series_mean. rewrite dropna_sales. simpl.
  by rewrite length_fmap.
Qed.

Lemma series_sum_sales_zero (pre post : list BookRecord) (b : BookRecord) :
  Sales_Index b = 0%Q ->
  (series_sum (sales_column (pre ++ b :: post))
   == series_sum (sales_column (pre ++ post)))%Q.
Proof.
  intros Hb. unfold series_sum. rewrite !dropna_sales, !fmap_app, fmap_cons.
  by apply Qsum_insert_zero.
Qed.

Lemma series_mean_sales_zero (pre post : list BookRecord) (b : BookRecord) :
  Sales_Index b = 0%Q ->
  exists m, series_mean (sales_column (pre ++ b :: post)) = Some m
    /\ (m == series_sum (sales_column (pre ++ post))
             / (inject_Z (Z.of_nat (length (pre ++ post))) + 1))%Q.
Proof.
  intros Hb. unfold series_mean, series_sum. rewrite !dropna_sales.
  destruct (Sales_Index <$> pre ++ b :: post) as [|q l] eqn:Hl.
  { by destruct pre. }
  eexists. split; [reflexivity|]. rewrite <- Hl. clear Hl q l.
  rewrite !fmap_app, fmap_cons, Qsum_insert_zero by done.
  rewrite <- fmap_app.
  assert (length ((Sales_Index <$> pre) ++ Sales_Index b :: (Sales_Index <$> post))
          = S (length (pre ++ post))) as ->.
  { rewrite !length_app. simpl. rewrite !length_fmap. lia. }
  rewrite Nat2Z.inj_succ. unfold Z.succ. rewrite inject_Z_plus. reflexivity.
Qed.

Lemma dropna_skip {A : Type} (l1 l2 : list (option A)) :
  dropna (l1 ++ None :: l2) = dropna (l1 ++ l2).
Proof. unfold dropna. by rewrite !omap_app. Qed.

(** A missing value changes neither a mean nor a sum. *)
Lemma series_mean_skip (l1 l2 : list (option Q)) :
  series_mean (l1 ++ None :: l2) = series_mean (l1 ++ l2).
Proof. unfold series_mean. by rewrite dropna_skip. Qed.

Lemma series_sum_skip (l1 l2 : list (option Q)) :
  series_sum (l1 ++ None :: l2) = series_sum (l1 ++ l2).
Proof. unfold series_sum. by rewrite dropna_skip. Qed.

(** Line 150: the mean of a publisher is taken over all the rows of that
    publisher. *)
Lemma publisher_sales_mean_group (rs : list BookRecord) (k : pystr)
    (m : option Q) :
  (k, m) ∈ publisher_sales_mean rs ->
  m = series_mean (sales_column (filter (fun b => Publisher b = Some k) rs)).
Proof.
  unfold publisher_sales_mean. intros Hin.
  apply list_elem_of_fmap in Hin as ([k' g] & [= -> ->] & Hin). simpl.
  rewrite <- group_of_groupby. do 2 f_equal.
  pose proof (groupby_ascending Publisher rs) as Hs.
  revert Hin Hs. unfold keys_ascending.
  induction (groupby Publisher rs) as [|[k0 xs] gs IH]; [by intros ?%elem_of_nil|].
  intros Hin Hs. apply StronglySorted_inv in Hs as [Hs Hall]. simpl.
  apply elem_of_cons in Hin as [[= -> ->]|Hin].
  - by rewrite decide_True.
  - destruct (decide (k' = k0)) as [->|_]; [|by apply IH].
    rewrite Forall_forall in Hall. specialize (Hall _ Hin). simpl in Hall.
    assert (str_compare k0 k0 = Eq) by (by apply str_compare_eq). congruence.
Qed.

End Means.

Section CoercionClaims.
Context `{PandasParsers}.

Lemma unreadable_coerce (c : cell) : unreadable c <-> to_numeric_coerce c = None.
Proof.
  unfold unreadable. split.
  - intros [->|(s & -> & Hs)]; [done|exact Hs].
  - destruct c as [|s|q]; simpl; [by left| |done].
    intros Hs. right. by exists s.
Qed.

Lemma loaded_row_at (raw : list RawRow) (df : DataFrame) (i : nat)
    (r : RawRow) :
  load_data_body (Some raw) = Ok (Some df) -> raw !! i = Some r ->
  exists p, rows df !! i = Some (prepare_row r p).
Proof.
  intros Hl Hr. apply load_data_body_rows in Hl as [_ Hl].
  destruct (Forall2_lookup_l _ _ _ _ _ Hl Hr) as (b & Hb & p & _ & ->).
  by exists p.
Qed.

(** C5: a row whose raw Sales Index is missing holds 0; whatever selection
    of rows it is part of, it adds 0 to the sum and is counted in the
    mean.  A row whose raw Rating or Review Count is missing or not numeric
    holds a missing value, and a mean or sum over any selection is the one
    over the selection without that row. *)
Theorem C5_zero_fill_versus_skip (raw : list RawRow) (df : DataFrame)
    (i : nat) (r : RawRow) (b : BookRecord) :
  load_data_body (Some raw) = Ok (Some df) ->
  raw !! i = Some r -> rows df !! i = Some b ->
  (raw_Sales_Index r = NaN ->
     Sales_Index b = 0%Q
     /\ forall pre post,
          (series_sum (sales_column (pre ++ b :: post))
           == series_sum (sales_column (pre ++ post)))%Q
          /\ exists m, series_mean (sales_column (pre ++ b :: post)) = Some m
               /\ (m == series_sum (sales_column (pre ++ post))
                        / (inject_Z (Z.of_nat (length (pre ++ post))) + 1))%Q)
  /\ (unreadable (raw_Rating r) ->
        Rating b = None
        /\ forall pre post,
             series_mean (Rating <$> (pre ++ b :: post))
             = series_mean (Rating <$> (pre ++ post)))
  /\ (unreadable (raw_Review_Count r) ->
        Review_Count b = None
        /\ forall pre post,
             series_mean (Review_Count <$> (pre ++ b :: post))
             = series_mean (Review_Count <$> (pre ++ post))
             /\ series_sum (Review_Count <$> (pre ++ b :: post))
                = series_sum (Review_Count <$> (pre ++ post))).
Proof.
  intros Hl Hr Hb.
  destruct (loaded_row_at _ _ _ _ Hl Hr) as [p Hp].
  rewrite Hb in Hp. injection Hp as ->.
  split; [|split].
  - intros Hs.
    assert (Sales_Index (prepare_row r p) = 0%Q) as H0 by (simpl; by rewrite Hs).
    split; [exact H0|]. intros pre post. split.
    + by apply series_sum_sales_zero.
    + by apply series_mean_sales_zero.
  - intros Hu%unreadable_coerce.
    assert (Rating (prepare_row r p) = None) as HN by exact Hu.
    split; [exact HN|]. intros pre post.
    rewrite !fmap_app, fmap_cons, HN. apply series_mean_skip.
  - intros Hu%unreadable_coerce.
    assert (Review_Count (prepare_row r p) = None) as HN by exact Hu.
    split; [exact HN|]. intros pre post.
    rewrite !fmap_app, fmap_cons, HN.
    split; [apply series_mean_skip|apply series_sum_skip].
Qed.

(** C6 (amended): the Rating of a prepared row is the number read from the
    raw cell, whatever its size: a numeric cell is stored as it is, a text
    cell as the number recognised in it, and Rating is missing only when the
    cell is empty or not numeric.  No range is applied. *)
Theorem C6_rating_is_the_coerced_cell (raw : list RawRow) (df : DataFrame)
    (i : nat) (r : RawRow) :
  load_data_body (Some raw) = Ok (Some df) -> raw !! i = Some r ->
  exists b, rows df !! i = Some b
    /\ (forall q, raw_Rating r = Num q -> Rating b = Some q)
    /\ (forall s, raw_Rating r = Str s -> Rating b = numeric_of_str s)
    /\ (Rating b = None <-> unreadable (raw_Rating r)).
Proof.
  intros Hl Hr. destruct (loaded_row_at _ _ _ _ Hl Hr) as [p Hp].
  exists (prepare_row r p). split; [exact Hp|]. simpl.
  split; [by intros q ->|]. split; [by intros s ->|].
  symmetry. apply unreadable_coerce.
Qed.

(** C10: a Sales Index cell holding text that is not numeric is recorded as
    0, and so is an empty one: the prepared table does not tell them
    apart. *)
Theorem C10_unparsable_sales_is_zero (raw : list RawRow) (df : DataFrame)
    (i : nat) (r : RawRow) (s : pystr) :
  load_data_body (Some raw) = Ok (Some df) ->
  raw !! i = Some r -> raw_Sales_Index r = Str s -> numeric_of_str s = None ->
  (exists b, rows df !! i = Some b /\ Sales_Index b = 0%Q)
  /\ (forall j r', raw !! j = Some r' -> raw_Sales_Index r' = NaN ->
        exists b', rows df !! j = Some b' /\ Sales_Index b' = 0%Q).
Proof.
  intros Hl Hr Hs Hn. split.
  - destruct (loaded_row_at _ _ _ _ Hl Hr) as [p Hp].
    exists (prepare_row r p). split; [exact Hp|]. simpl. by rewrite Hs; simpl; rewrite Hn.
  - intros j r' Hr' Hs'. destruct (loaded_row_at _ _ _ _ Hl Hr') as [p Hp].
    exists (prepare_row r' p). split; [exact Hp|]. simpl. by rewrite Hs'.
Qed.

End CoercionClaims.

Section CoercionWitnesses.
Local Existing Instance Sample.parsers.

Lemma C5_zero_fill_versus_skip_witness :
  let b := prepare_row Sample.row_gaps (Some 28000%Q) in
  raw_Sales_Index Sample.row_gaps = NaN
  /\ unreadable (raw_Rating Sample.row_gaps)
  /\ Sales_Index b = 0%Q
  /\ Rating b = None
  /\ series_mean (Rating <$> ([] ++ b :: [])) = series_mean (Rating <$> ([] ++ [])).
Proof.
  intros b.
  destruct (C5_zero_fill_versus_skip Sample.csv_ok (loaded Sample.csv_ok) 1
              Sample.row_gaps b
              ltac:(vm_compute; reflexivity) eq_refl
              ltac:(vm_compute; reflexivity)) as (Hsales & Hrating & _).
  assert (unreadable (raw_Rating Sample.row_gaps)) as Hu by (by left).
  destruct (Hsales eq_refl) as [H0 _].
  destruct (Hrating Hu) as [HN Hmean].
  split; [reflexivity|]. split; [exact Hu|]. split; [exact H0|].
  split; [exact HN|]. exact (Hmean [] []).
Defined.

Lemma C6_rating_is_the_coerced_cell_witness :
  exists b, rows (loaded Sample.csv_ok) !! 0 = Some b
    /\ (forall q, raw_Rating Sample.row_rating_11 = Num q -> Rating b = Some q).
Proof.
  destruct (C6_rating_is_the_coerced_cell Sample.csv_ok (loaded Sample.csv_ok)
              0 Sample.row_rating_11
              ltac:(vm_compute; reflexivity) eq_refl) as (b & Hb & Hnum & _).
  exists b. split; [exact Hb|exact Hnum].
Defined.

(** C6 (as stated, refuted): the first row of the sample file has the raw
    rating 11; the prepared table stores 11, outside [0,10]. *)
Lemma C6_rating_11_is_stored :
  ~ (forall b q, b ∈ rows (loaded Sample.csv_ok) -> Rating b = Some q ->
       (0 <= q /\ q <= 10)%Q).
Proof.
  intros Hclaim.
  destruct (Hclaim (prepare_row Sample.row_rating_11 (Some 15000%Q)) 11%Q)
    as [_ Hle].
  - apply list_elem_of_lookup. exists 0. vm_compute. reflexivity.
  - reflexivity.
  - revert Hle. apply Qlt_not_le. reflexivity.
Qed.

Lemma C10_unparsable_sales_is_zero_witness :
  numeric_of_str (u "미집계") = None
  /\ exists b, rows (loaded Sample.csv_text_sales) !! 1 = Some b
       /\ Sales_Index b = 0%Q.
Proof.
  split; [vm_compute; reflexivity|].
  exact (proj1 (C10_unparsable_sales_is_zero Sample.csv_text_sales
                  (loaded Sample.csv_text_sales) 1 Sample.row_text_sales
                  (u "미집계")
                  ltac:(vm_compute; reflexivity) eq_refl eq_refl
                  ltac:(vm_compute; reflexivity))).
Defined.

End CoercionWitnesses.

(** ** Keyword search *)

Section Keyword.

Lemma compile_plain (kw : pystr) :
  Forall (fun c => Regex.is_meta c = false) kw ->
  Regex.compile kw = Some (Regex.Lit <$> kw).
Proof.
  induction 1 as [|c kw Hc _ IH]; [done|].
  simpl. rewrite Hc.
  unfold Regex.is_meta in Hc.
  repeat (apply orb_false_elim in Hc as [Hc ?]).
  rewrite Hc. replace (c =? 92)%N with false by done.
  by rewrite IH.
Qed.

Lemma match_here_literal (kw s : pystr) :
  Regex.match_here (Regex.Lit <$> kw) s = true
  <-> exists mid post, s = mid ++ post /\ lower <$> mid = lower <$> kw.
Proof.
  revert s. induction kw as [|c kw IH]; intros s; simpl.
  - split; [|done]. intros _. by exists [], s.
  - destruct s as [|d s].
    + split; [done|]. intros (mid & post & Hs & Hm).
      symmetry in Hs. apply app_eq_nil in Hs as [-> _]. done.
    + rewrite andb_true_iff, IH, N.eqb_eq. split.
      * intros (Hcd & mid & post & -> & Hm). exists (d :: mid), post.
        split; [done|]. rewrite fmap_cons. f_equal; [by symmetry|exact Hm].
      * intros (mid & post & Hs & Hm). destruct mid as [|d' mid]; [done|].
        rewrite fmap_cons in Hm. simpl in Hs.
        injection Hs as <- ->. injection Hm as Hd Hm.
        split; [done|]. by exists mid, post.
Qed.

Lemma search_spec (p : list Regex.atom) (s : pystr) :
  Regex.search p s = true
  <-> exists pre rest, s = pre ++ rest /\ Regex.match_here p rest = true.
Proof.
  induction s as [|c s IH]; simpl.
  - rewrite orb_false_r. split.
    + intros Hm. by exists [], [].
    + intros (pre & rest & Hs & Hm). symmetry in Hs.
      apply app_eq_nil in Hs as [_ ->]. done.
  - rewrite orb_true_iff, IH. split.
    + intros [Hm|(pre & rest & -> & Hm)].
      * by exists [], (c :: s).
      * by exists (c :: pre), rest.
    + intros (pre & rest & Hs & Hm). destruct pre as [|c' pre].
      * left. simpl in Hs. by rewrite Hs.
      * right. injection Hs as _ ->. by exists pre, rest.
Qed.

(** Searching for the pattern of literals is searching for the keyword as
    a substring, letter case apart. *)
Lemma search_literal (kw s : pystr) :
  Regex.search (Regex.Lit <$> kw) s = true <-> occurs_ci kw s.
Proof.
  rewrite search_spec. unfold occurs_ci. split.
  - intros (pre & rest & -> & (mid & post & -> & Hm)%match_here_literal).
    by exists pre, mid, post.
  - intros (pre & mid & post & -> & Hm). exists pre, (mid ++ post).
    split; [done|]. apply match_here_literal. by exists mid, post.
Qed.

Lemma select_fmap {A : Type} (f : A -> bool) (l : list A) :
  select (f <$> l) l = List.filter f l.
Proof.
  induction l as [|x l IH]; [done|]. rewrite fmap_cons. simpl.
  by rewrite IH.
Qed.

Lemma keyword_mask (pat : list Regex.atom) (rs : list BookRecord) :
  zip_with or_mask (str_contains pat (Title <$> rs))
                   (str_contains pat (fillna_str [] (Subtitle <$> rs)))
  = row_mask pat <$> rs.
Proof.
  unfold str_contains, fillna_str, row_mask.
  induction rs as [|r rs IH]; [done|]. rewrite !fmap_cons. simpl.
  f_equal. exact IH.
Qed.


(** C4: with the empty keyword the filter returns the table itself. *)
Theorem C4_empty_keyword_is_identity (df : DataFrame) :
  keyword_filter [] df = Some df.
Proof. reflexivity. Qed.

End Keyword.

Section KeywordWitnesses.
Local Existing Instance Sample.parsers.


Example keyword_AI_sample :
  (fun d => Title <$> rows d) <$> keyword_filter (u "AI") (loaded Sample.csv_ok)
  = Some [Some (u "AI 입문"); Some (u "파이썬")].
Proof. vm_compute. reflexivity. Qed.


End KeywordWitnesses.

(** ** Ranking by sales index *)

Section Ranking.
Context {A : Type} (key : A -> Q).

Lemma insert_desc_perm (x : A) (l : list A) :
  Permutation (insert_desc key x l) (x :: l).
Proof.
  induction l as [|y l IH]; simpl; [done|].
  destruct (Qle_bool (key y) (key x)); [done|].
  rewrite IH. apply perm_swap.
Qed.

Lemma sort_desc_perm (l : list A) : Permutation (sort_desc key l) l.
Proof.
  induction l as [|x l IH]; simpl; [done|].
  rewrite insert_desc_perm. by constructor.
Qed.

Lemma insert_desc_descending (x : A) (l : list A) :
  descending key l -> descending key (insert_desc key x l).
Proof.
  unfold descending. induction l as [|y l IH]; simpl; intros Hs.
  - repeat constructor.
  - apply StronglySorted_inv in Hs as [Hs Hall].
    destruct (Qle_bool (key y) (key x)) eqn:Hle.
    + apply Qle_bool_iff in Hle. constructor; [by constructor|].
      constructor; [done|].
      eapply Forall_impl; [exact Hall|]. intros z Hz. simpl in *.
      by eapply Qle_trans.
    + constructor; [by apply IH|].
      rewrite insert_desc_perm. constructor; [|exact Hall].
      apply Qlt_le_weak, Qnot_le_lt. intros Hc.
      apply Qle_bool_iff in Hc. congruence.
Qed.

Lemma sort_desc_descending (l : list A) : descending key (sort_desc key l).
Proof.
  induction l as [|x l IH]; simpl; [constructor|].
  by apply insert_desc_descending.
Qed.

(** Rows with the same key value keep their order of appearance. *)
Lemma insert_desc_ties (v : Q) (x : A) (l : list A) :
  List.filter (fun a => Qeq_bool (key a) v) (insert_desc key x l)
  = List.filter (fun a => Qeq_bool (key a) v) (x :: l).
Proof.
  induction l as [|y l IH]; [done|].
  cbn [insert_desc]. destruct (Qle_bool (key y) (key x)) eqn:Hle; [done|].
  cbn [List.filter] in *. rewrite IH.
  destruct (Qeq_bool (key x) v) eqn:Hx; [|done].
  destruct (Qeq_bool (key y) v) eqn:Hy; [|done].
  apply Qeq_bool_iff in Hx, Hy.
  assert (Qle_bool (key y) (key x) = true) as Hle'.
  { apply Qle_bool_iff. rewrite Hx, Hy. apply Qle_refl. }
  congruence.
Qed.

Lemma sort_desc_ties (v : Q) (l : list A) :
  List.filter (fun a => Qeq_bool (key a) v) (sort_desc key l)
  = List.filter (fun a => Qeq_bool (key a) v) l.
Proof.
  induction l as [|x l IH]; [done|].
  cbn [sort_desc foldr]. rewrite insert_desc_ties.
  cbn [List.filter]. unfold sort_desc in IH. by rewrite IH.
Qed.

Lemma descending_take (n : nat) (l : list A) :
  descending key l -> descending key (take n l).
Proof.
  unfold descending. revert n. induction l as [|x l IH]; intros [|n] Hs;
    simpl; try constructor.
  - apply IH. by apply StronglySorted_inv in Hs as [? _].
  - apply StronglySorted_inv in Hs as [_ Hall].
    apply Forall_forall. intros y Hy. rewrite Forall_forall in Hall.
    apply Hall. rewrite <- (take_drop n l). apply elem_of_app. by left.
Qed.

End Ranking.

Example nlargest_ties :
  nlargest 3 snd [("a", 5%Q); ("b", 7%Q); ("c", 5%Q); ("d", 7%Q); ("e", 5%Q)]
  = [("b", 7%Q); ("d", 7%Q); ("a", 5%Q)].
Proof. reflexivity. Qed.


(** ** Correlation matrix *)

Section Correlation.

Lemma co_dev_comm (f g : R * R -> R) (ps : list (R * R)) :
  co_dev f g ps = co_dev g f ps.
Proof.
  unfold co_dev. f_equal. apply list_fmap_ext. intros _ p _.
  apply Rmult_comm.
Qed.

Lemma co_dev_swap (f g : R * R -> R) (ps : list (R * R)) :
  co_dev f g (prod_swap <$> ps)
  = co_dev (fun p => f (prod_swap p)) (fun p => g (prod_swap p)) ps.
Proof.
  unfold co_dev. rewrite <- !list_fmap_compose. done.
Qed.

Lemma pearson_swap (ps : list (R * R)) :
  pearson (prod_swap <$> ps) = pearson ps.
Proof.
  destruct ps as [|p ps]; [done|].
  unfold pearson. rewrite fmap_cons. rewrite <- (fmap_cons prod_swap).
  rewrite !co_dev_swap.
  change (fun p0 : R * R => (prod_swap p0).1) with (@snd R R).
  change (fun p0 : R * R => (prod_swap p0).2) with (@fst R R).
  rewrite (co_dev_comm snd fst).
  rewrite (Rmult_comm (co_dev snd snd (p :: ps))). done.
Qed.

Lemma complete_pairs_swap (xs ys : list (option Q)) :
  complete_pairs ys xs = prod_swap <$> complete_pairs xs ys.
Proof.
  unfold complete_pairs. revert ys.
  induction xs as [|x xs IH]; intros [|y ys]; try done.
  simpl. rewrite IH. by destruct x, y.
Qed.

(** The pairs of two columns of a table are the pairs of its rows. *)
Lemma complete_pairs_rows (f g : BookRecord -> option Q)
    (rs : list BookRecord) :
  complete_pairs (f <$> rs) (g <$> rs) = omap (both f g) rs.
Proof.
  unfold complete_pairs, both.
  induction rs as [|r rs IH]; [done|]. simpl.
  destruct (f r), (g r); simpl; try f_equal; exact IH.
Qed.

Lemma entry_lookup (df : DataFrame) (i j : nat)
    (f g : BookRecord -> option Q) :
  numeric_fields !! i = Some f -> numeric_fields !! j = Some g ->
  entry df i j = Some (pearson (complete_pairs (f <$> rows df) (g <$> rows df))).
Proof.
  intros Hf Hg. unfold entry, corr.
  rewrite list_lookup_fmap, Hf.
  cbn [fmap option_fmap option_map mbind option_bind].
  by rewrite list_lookup_fmap, Hg.
Qed.

Lemma entry_out_of_range (df : DataFrame) (i j : nat) :
  numeric_fields !! i = None \/ numeric_fields !! j = None ->
  entry df i j = None.
Proof.
  unfold entry, corr. rewrite list_lookup_fmap.
  destruct (numeric_fields !! i) as [f|];
    cbn [fmap option_fmap option_map mbind option_bind]; [|done].
  intros [|Hj]; [done|]. by rewrite list_lookup_fmap, Hj.
Qed.

(** The matrix is symmetric, missing entries included. *)
Lemma corr_symmetric (df : DataFrame) (i j : nat) :
  entry df i j = entry df j i.
Proof.
  destruct (numeric_fields !! i) as [f|] eqn:Hf;
    [|rewrite !entry_out_of_range; auto].
  destruct (numeric_fields !! j) as [g|] eqn:Hg;
    [|rewrite !entry_out_of_range; auto].
  rewrite (entry_lookup df i j f g), (entry_lookup df j i g f) by done.
  f_equal. rewrite (complete_pairs_swap (f <$> rows df)).
  by rewrite pearson_swap.
Qed.

Lemma Rsum_squares_nonneg (vs : list R) (m : R) :
  (0 <= Rsum ((fun v => (v - m) * (v - m)) <$> vs))%R.
Proof.
  unfold Rsum. induction vs as [|v vs IH]; [simpl; lra|].
  rewrite fmap_cons. cbn [foldr].
  pose proof (Rle_0_sqr (v - m)) as Hsq. unfold Rsqr in Hsq. lra.
Qed.

Lemma diagonal_pairs (xs : list (option Q)) :
  complete_pairs xs xs = (fun v => (v, v)) <$> (Q2R <$> dropna xs).
Proof.
  unfold complete_pairs, dropna.
  induction xs as [|[x|] xs IH]; simpl; [done| |exact IH].
  f_equal. exact IH.
Qed.

Lemma co_dev_diagonal (f g : R * R -> R) (vs : list R) :
  (forall v, f (v, v) = v) -> (forall v, g (v, v) = v) ->
  co_dev f g ((fun v => (v, v)) <$> vs)
  = Rsum ((fun v => (v - Rmean vs) * (v - Rmean vs))%R <$> vs).
Proof.
  intros Hf Hg. unfold co_dev. rewrite <- !list_fmap_compose.
  assert (f ∘ (fun v : R => (v, v)) <$> vs = vs) as ->.
  { rewrite <- (list_fmap_id vs) at 2. apply list_fmap_ext. intros; apply Hf. }
  assert (g ∘ (fun v : R => (v, v)) <$> vs = vs) as ->.
  { rewrite <- (list_fmap_id vs) at 2. apply list_fmap_ext. intros; apply Hg. }
  f_equal. apply list_fmap_ext. intros _ v _. simpl. by rewrite Hf, Hg.
Qed.

(** A column with some variance correlates with itself at exactly 1. *)
Lemma pearson_diagonal (xs : list (option Q)) :
  spread xs <> 0%R -> pearson (complete_pairs xs xs) = Some 1%R.
Proof.
  intros Hv. rewrite diagonal_pairs. unfold spread in Hv. cbv zeta in Hv.
  revert Hv. generalize (Q2R <$> dropna xs). intros [|v vs] Hv.
  { exfalso. apply Hv. reflexivity. }
  unfold pearson. rewrite fmap_cons. cbv beta iota zeta.
  rewrite <- (fmap_cons (fun v0 : R => (v0, v0))).
  rewrite !co_dev_diagonal by done.
  set (V := Rsum _) in *.
  assert (0 <= V)%R as Hpos by apply Rsum_squares_nonneg.
  assert (sqrt (V * V) = V) as -> by (by apply sqrt_square).
  destruct (Req_dec_T V 0) as [HV|_]; [done|].
  f_equal. by field.
Qed.

(** One pair gives no coefficient. *)
Lemma pearson_single (p : R * R) : pearson [p] = None.
Proof.
  assert (forall f g : R * R -> R, co_dev f g [p] = 0%R) as Hz.
  { intros f g. unfold co_dev, Rmean, Rsum. simpl. field. }
  unfold pearson. rewrite !Hz, Rmult_0_l, sqrt_0.
  by destruct (Req_dec_T 0 0).
Qed.

(** Rows without one of the two values do not enter a coefficient. *)
Lemma omap_both_skip (f g : BookRecord -> option Q)
    (pre post : list BookRecord) (r : BookRecord) :
  f r = None \/ g r = None ->
  omap (both f g) (pre ++ r :: post) = omap (both f g) (pre ++ post).
Proof.
  intros Hr. rewrite !omap_app. simpl.
  assert (both f g r = None) as ->; [|done].
  unfold both. destruct Hr as [->| ->]; [done|]. by destruct (f r).
Qed.


End Correlation.

Section CorrelationWitnesses.
Local Existing Instance Sample.parsers.

Lemma sample_prices :
  Price <$> rows (loaded Sample.csv_ok)
  = [Some 15000%Q; Some 28000%Q; Some 22000%Q].
Proof. vm_compute. reflexivity. Qed.

Lemma sample_sales :
  (fun r => Some (Sales_Index r)) <$> rows (loaded Sample.csv_ok)
  = [Some 3000%Q; Some 0%Q; Some 990%Q].
Proof. vm_compute. reflexivity. Qed.

Lemma sample_price_spread :
  spread (Price <$> rows (loaded Sample.csv_ok)) <> 0%R.
Proof.
  rewrite sample_prices. unfold spread, dropna, Rmean, Rsum, Q2R. simpl.
  lra.
Qed.


(** Pairwise, not row-wise: in the sample table only the first row holds
    all four values, and one row gives no coefficient; the entry of Price
    against Sales Index is present all the same, computed over the three
    rows that hold these two values. *)
Lemma corr_not_rowwise_complete :
  length (complete_rows (rows (loaded Sample.csv_ok))) = 1
  /\ pearson (omap (both Price (fun r => Some (Sales_Index r)))
                (complete_rows (rows (loaded Sample.csv_ok)))) = None
  /\ exists c, entry (loaded Sample.csv_ok) 0 3 = Some (Some c).
Proof.
  split; [vm_compute; reflexivity|]. split.
  - replace (complete_rows (rows (loaded Sample.csv_ok)))
      with [prepare_row Sample.row_rating_11 (Some 15000%Q)]
      by (vm_compute; reflexivity).
    apply pearson_single.
  - rewrite (entry_lookup _ 0 3 Price (fun r => Some (Sales_Index r))) by done.
    rewrite sample_prices, sample_sales.
    unfold pearson, complete_pairs. simpl.
    destruct (Req_dec_T _ 0) as [Hd|_]; [exfalso|by eexists].
    apply sqrt_eq_0 in Hd.
    + revert Hd. unfold co_dev, Rmean, Rsum, Q2R. simpl. lra.
    + unfold co_dev, Rmean, Rsum, Q2R. simpl. lra.
Qed.

End CorrelationWitnesses.

(** ** The shared table across reruns *)

Section Sharing.
Context `{PandasParsers}.

(** One run against a filled cache: a new frame is made from the cached
    table, the view works on that frame, and nothing else changes. *)
Lemma run_script_cached (file : option (list RawRow)) (menu : Menu)
    (s : Session) (t : DataFrame) :
  cache s = Some (Some t) ->
  let l := fresh (dom (heap s)) in
  run_script file menu s
  = (mkSession (<[l := after_view menu t]> (heap s)) (cache s),
     Rendered menu l).
Proof.
  intros Hc l. unfold run_script, load_data. rewrite Hc. simpl.
  fold l. rewrite <- Hc. f_equal. f_equal.
  destruct menu; simpl; try done.
  by rewrite alter_insert_eq.
Qed.

Lemma run_script_keeps_cache (file : option (list RawRow)) (menu : Menu)
    (s : Session) (t : DataFrame) :
  cache s = Some (Some t) -> cache (run_script file menu s).1 = Some (Some t).
Proof.
  intros Hc. by rewrite (run_script_cached file menu s t Hc).
Qed.

Lemma run_many_keeps_cache (file : option (list RawRow)) (menus : list Menu)
    (s : Session) (t : DataFrame) :
  cache s = Some (Some t) -> cache (run_many file menus s) = Some (Some t).
Proof.
  revert s. induction menus as [|m ms IH]; intros s Hc; [done|].
  simpl. apply IH. by apply run_script_keeps_cache.
Qed.

(** The first run of a session fills the cache with the loaded table. *)
Lemma first_run_fills_cache (raw : list RawRow) (menu : Menu)
    (df : DataFrame) :
  load_data_body (Some raw) = Ok (Some df) ->
  cache (run_script (Some raw) menu (mkSession ∅ None)).1 = Some (Some df).
Proof.
  intros Hl. unfold run_script, load_data. cbn [cache]. by rewrite Hl.
Qed.

Lemma after_view_columns (menu : Menu) (t : DataFrame) :
  rows (after_view menu t) = rows t
  /\ (menu <> PriceRating -> after_view menu t = t)
  /\ (menu = PriceRating ->
        columns (after_view menu t) = columns t ∪ {["Price Range"%string]}).
Proof.
  split; [by destruct menu|]. split; [by destruct menu|].
  intros ->. unfold columns, after_view, assign. cbn [extra].
  rewrite dom_insert_L.
  generalize (list_to_set base_columns : gset string) (dom (extra t)).
  intros B D. rewrite (comm_L (∪) _ D). apply (assoc_L (∪)).
Qed.


End Sharing.

Section SharingWitnesses.
Local Existing Instance Sample.parsers.


(** In a loaded table there is no Price Range column; the frame of a
    Price & Rating run has it, the table read by the next run has not. *)
Lemma price_range_stays_in_its_run :
  let t := loaded Sample.csv_ok in
  let s := (run_script (Some Sample.csv_ok) PriceRating (mkSession ∅ None)).1 in
  ("Price Range"%string ∉ columns t)
  /\ cache s = Some (Some t)
  /\ (exists d, heap s !! 0 = Some d /\ "Price Range"%string ∈ columns d)
  /\ exists l d, (run_script (Some Sample.csv_ok) Home s).2 = Rendered Home l
       /\ heap (run_script (Some Sample.csv_ok) Home s).1 !! l = Some d
       /\ "Price Range"%string ∉ columns d.
Proof.
  intros t s.
  assert ("Price Range"%string ∉ columns t) as Hno.
  { apply (bool_decide_unpack _). vm_compute. reflexivity. }
  assert (cache s = Some (Some t)) as Hc.
  { apply first_run_fills_cache. vm_compute. reflexivity. }
  split; [exact Hno|]. split; [exact Hc|]. split.
  - exists (after_view PriceRating t). split; [vm_compute; reflexivity|].
    rewrite (proj2 (proj2 (after_view_columns PriceRating t)) eq_refl).
    by apply elem_of_union_r, elem_of_singleton.
  - rewrite (run_script_cached (Some Sample.csv_ok) Home s t Hc).
    exists (fresh (dom (heap s))), t. split; [done|].
    split; [apply lookup_insert_eq|exact Hno].
Qed.

End SharingWitnesses.

(** * Further properties of the script *)

(** ** Price texts *)

Section PriceText.

Lemma replace_go_char (a : N) (s : pystr) :
  replace_go [a] [] s 0 = List.filter (fun c => negb (a =? c)%N) s.
Proof.
  induction s as [|c s IH]; [done|].
  cbn [replace_go starts_with List.filter length].
  destruct (a =? c)%N; simpl; [exact IH|]. by rewrite IH.
Qed.

Lemma price_text_stripped (s : pystr) :
  Forall price_char s ->
  str_replace (u "원") [] (str_replace (u ",") [] s) = List.filter is_digit s.
Proof.
  intros Hs. change (u "원") with [50896%N]. change (u ",") with [44%N].
  unfold str_replace. rewrite !replace_go_char.
  induction Hs as [|c s Hc _ IH]; [done|].
  cbn [List.filter].
  destruct (N.eqb_spec 44 c) as [<-|H44]; cbn [negb List.filter].
  { exact IH. }
  destruct (N.eqb_spec 50896 c) as [<-|Hwon]; cbn [negb].
  { exact IH. }
  destruct Hc as [Hd|[->| ->]]; [|done|done].
  rewrite Hd. by rewrite IH.
Qed.

Lemma digit_not_space (c : N) : is_digit c = true -> is_space c = false.
Proof.
  unfold is_digit, is_space. intros [H1 H2]%andb_true_iff.
  apply N.leb_le in H1, H2.
  repeat match goal with
         | |- context [(?a <=? ?b)%N] => destruct (N.leb_spec a b); try lia
         | |- context [(?a =? ?b)%N] => destruct (N.eqb_spec a b); try lia
         end; done.
Qed.

Lemma lstrip_digits (ds : pystr) :
  Forall (fun c => is_digit c = true) ds -> lstrip ds = ds.
Proof.
  intros [|c ds' Hc _]; [done|]. simpl. by rewrite (digit_not_space c Hc).
Qed.

Lemma strip_digits (ds : pystr) :
  Forall (fun c => is_digit c = true) ds -> strip ds = ds.
Proof.
  intros Hd. unfold strip. rewrite (lstrip_digits ds Hd).
  rewrite lstrip_digits; [apply rev_involutive|].
  apply Forall_forall. intros c Hc. rewrite Forall_forall in Hd.
  apply Hd. apply list_elem_of_In. apply in_rev. by apply list_elem_of_In.
Qed.

Lemma int_digits_all (ds : pystr) (prev : bool) (acc : Z) :
  Forall (fun c => is_digit c = true) ds -> ds <> [] ->
  int_digits ds prev acc
  = Some (fold_left (fun a c => 10 * a + digit_val c)%Z ds acc).
Proof.
  intros Hd. revert prev acc.
  induction Hd as [|c ds Hc Hds IH]; intros prev acc Hne; [done|].
  simpl. rewrite Hc. destruct ds as [|c' ds]; [done|]. by apply IH.
Qed.

Lemma py_int_digits (ds : pystr) :
  Forall (fun c => is_digit c = true) ds -> ds <> [] ->
  py_int ds = Some (decimal_value ds).
Proof.
  intros Hd Hne. unfold py_int. rewrite (strip_digits ds Hd).
  destruct ds as [|c rest]; [done|].
  pose proof (Forall_inv Hd) as Hc. simpl in Hc.
  assert ((c =? 45)%N = false) as ->.
  { apply N.eqb_neq. intros ->. discriminate. }
  assert ((c =? 43)%N = false) as ->.
  { apply N.eqb_neq. intros ->. discriminate. }
  by apply int_digits_all.
Qed.

Lemma decimal_value_nonneg (ds : pystr) :
  Forall (fun c => is_digit c = true) ds -> (0 <= decimal_value ds)%Z.
Proof.
  intros Hd. unfold decimal_value.
  assert (forall acc, (0 <= acc)%Z ->
            (0 <= fold_left (fun a c => 10 * a + digit_val c) ds acc)%Z) as Hg.
  { induction Hd as [|c ds Hc _ IH]; intros acc Hacc; [done|].
    simpl. apply IH. unfold is_digit in Hc.
    apply andb_true_iff in Hc as [H1 _].
    apply N.leb_le in H1. unfold digit_val. lia. }
  by apply Hg.
Qed.

(** A price written with digits, thousands separators and the currency
    marker, wherever they stand, is cleaned to the number its digits spell,
    which is not negative (for at most 4300 digits, the most [int] reads);
    a text of separators and markers without a digit makes [clean_price]
    raise ValueError. *)
Theorem clean_price_reads_the_digits (s : pystr) :
  Forall price_char s ->
  let ds := List.filter is_digit s in
  (ds <> [] -> length ds <= 4300 ->
     clean_price (Str s) = Ok (Some (inject_Z (decimal_value ds)))
     /\ (0 <= decimal_value ds)%Z)
  /\ (ds = [] -> clean_price (Str s) = Raise ValueError).
Proof.
  intros Hs ds. unfold clean_price. rewrite (price_text_stripped s Hs).
  fold ds.
  assert (Forall (fun c => is_digit c = true) ds) as Hd.
  { apply Forall_forall. intros c Hc. apply list_elem_of_In in Hc.
    by apply filter_In in Hc as [_ Hc]. }
  split.
  - intros Hne _. rewrite (py_int_digits ds Hd Hne).
    split; [done|by apply decimal_value_nonneg].
  - intros ->. reflexivity.
Qed.

Lemma clean_price_reads_the_digits_witness :
  Forall price_char (u "1,234,500원")
  /\ clean_price (Str (u "1,234,500원")) = Ok (Some 1234500%Q).
Proof.
  assert (Forall price_char (u "1,234,500원")) as Hs.
  { vm_compute.
    repeat (apply Forall_cons_2; [auto|]). apply Forall_nil_2. }
  split; [exact Hs|].
  exact (proj1 (proj1 (clean_price_reads_the_digits
                         (u "1,234,500원") Hs)
                  ltac:(vm_compute; discriminate)
                  ltac:(vm_compute; lia))).
Defined.

End PriceText.

(** ** The outcome of a load, and what the cache remembers *)

Section LoadOutcome.
Context `{PandasParsers}.

Lemma clean_price_cases (c : cell) :
  (exists p, clean_price c = Ok p) \/ clean_price c = Raise ValueError.
Proof.
  destruct c as [|s|q]; simpl; eauto.
  destruct (py_int _); eauto.
Qed.


Lemma session_after_cached (file : option (list RawRow)) (m : Menu)
    (s : Session) (v : option DataFrame) :
  cache s = Some v -> cache (run_script file m s).1 = Some v.
Proof.
  intros Hc. destruct v as [t|].
  - by apply run_script_keeps_cache.
  - unfold run_script, load_data. rewrite Hc. done.
Qed.

Lemma run_script_file_irrelevant (f1 f2 : option (list RawRow)) (m : Menu)
    (s : Session) (v : option DataFrame) :
  cache s = Some v -> run_script f1 m s = run_script f2 m s.
Proof. intros Hc. unfold run_script, load_data. by rewrite Hc. Qed.

(** Once the cache holds a result the file is not read again: whatever
    files are found during the later runs, each run does what it would do
    with any other file, and the sessions end the same, with the cache as
    it was. *)
Theorem cached_load_never_reads_file (s : Session) (v : option DataFrame)
    (steps steps' : list (option (list RawRow) * Menu)) :
  cache s = Some v -> snd <$> steps = snd <$> steps' ->
  run_session steps s = run_session steps' s
  /\ cache (run_session steps s) = Some v.
Proof.
  revert s steps'. induction steps as [|[f m] steps IH];
    intros s [|[f' m'] steps'] Hc Hm; try done.
  injection Hm as <- Hm. simpl.
  rewrite (run_script_file_irrelevant f f' m s v Hc).
  apply IH; [|done]. by apply session_after_cached.
Qed.

(** A run that finds no file stops at the file-missing message, makes no
    frame, and the miss is cached: every later run of the session stops
    there too, even when the file exists by then. *)
Theorem missing_file_is_remembered (m : Menu) (s : Session) :
  cache s = None ->
  let s1 := (run_script None m s).1 in
  (run_script None m s).2 = FileMissing
  /\ heap s1 = heap s
  /\ forall file m', run_script file m' s1 = (s1, FileMissing).
Proof.
  intros Hc. unfold run_script, load_data. rewrite Hc. simpl.
  split; [done|]. split; [done|]. intros file m'.
  unfold run_script, load_data. done.
Qed.

(** A load that raises is not cached and leaves the session as it was; the
    next run reads the file again, and a file that loads then is the table
    of the session. *)
Theorem failed_load_is_retried (file : option (list RawRow)) (m m' : Menu)
    (s : Session) (e : exn) (raw : list RawRow) (df : DataFrame) :
  cache s = None -> load_data_body file = Raise e ->
  load_data_body (Some raw) = Ok (Some df) ->
  run_script file m s = (s, LoadFailed e)
  /\ cache (run_script (Some raw) m' (run_script file m s).1).1
     = Some (Some df).
Proof.
  intros Hc He Hok.
  assert (run_script file m s = (s, LoadFailed e)) as Hrun.
  { unfold run_script, load_data. by rewrite Hc, He. }
  split; [exact Hrun|]. rewrite Hrun. simpl.
  unfold run_script, load_data. rewrite Hc, Hok. done.
Qed.


End LoadOutcome.

Section LoadOutcomeWitnesses.
Local Existing Instance Sample.parsers.


Lemma cached_load_never_reads_file_witness :
  let s := mkSession ∅ (Some (Some (loaded Sample.csv_ok))) in
  run_session [(None, Home); (Some Sample.csv_bad_price, PriceRating)] s
  = run_session [(Some Sample.csv_ok, Home); (Some [], PriceRating)] s.
Proof.
  intros s.
  exact (proj1 (cached_load_never_reads_file s _
                  [(None, Home); (Some Sample.csv_bad_price, PriceRating)]
                  [(Some Sample.csv_ok, Home); (Some [], PriceRating)]
                  eq_refl eq_refl)).
Defined.

Lemma missing_file_is_remembered_witness :
  run_script (Some Sample.csv_ok) Home
    (run_script None Home (mkSession ∅ None)).1
  = ((run_script None Home (mkSession ∅ None)).1, FileMissing).
Proof.
  exact (proj2 (proj2 (missing_file_is_remembered Home (mkSession ∅ None)
                         eq_refl)) (Some Sample.csv_ok) Home).
Defined.

Lemma failed_load_is_retried_witness :
  cache (run_script (Some Sample.csv_ok) Home
           (run_script (Some Sample.csv_bad_price) Home (mkSession ∅ None)).1).1
  = Some (Some (loaded Sample.csv_ok)).
Proof.
  exact (proj2 (failed_load_is_retried (Some Sample.csv_bad_price) Home Home
                  (mkSession ∅ None) ValueError Sample.csv_ok
                  (loaded Sample.csv_ok) eq_refl
                  ltac:(vm_compute; reflexivity)
                  ltac:(vm_compute; reflexivity))).
Defined.


End LoadOutcomeWitnesses.

(** ** Groups, counts and the publisher pages *)

Section Groups.
Context {A : Type}.
Implicit Types (g : list (pystr * list A)) (k : pystr).

Lemma add_to_group_nonempty k (x : A) g :
  Forall (fun kg => snd kg <> []) g ->
  Forall (fun kg => snd kg <> []) (add_to_group k x g).
Proof.
  induction g as [|[k' xs] g IH]; simpl; intros Hg.
  - by repeat constructor.
  - apply Forall_cons in Hg as [Hx Hg].
    destruct (str_compare k k'); repeat constructor; auto.
Qed.

Lemma groupby_nonempty (key : A -> option pystr) (l : list A) :
  Forall (fun kg => snd kg <> []) (groupby key l).
Proof.
  induction l as [|x l IH]; simpl; [constructor|].
  destruct (key x); [by apply add_to_group_nonempty|done].
Qed.

Lemma group_of_elem k xs g :
  keys_ascending g -> (k, xs) ∈ g -> group_of k g = xs.
Proof.
  unfold keys_ascending. induction g as [|[k0 ys] g IH]; intros Hs Hin.
  { by apply elem_of_nil in Hin. }
  apply StronglySorted_inv in Hs as [Hs Hall]. simpl.
  apply elem_of_cons in Hin as [[= -> ->]|Hin].
  - by rewrite decide_True.
  - destruct (decide (k = k0)) as [->|_]; [|by apply IH].
    rewrite Forall_forall in Hall. specialize (Hall _ Hin). simpl in Hall.
    assert (str_compare k0 k0 = Eq) by (by apply str_compare_eq). congruence.
Qed.

Lemma group_of_nonempty_elem k g :
  group_of k g <> [] -> (k, group_of k g) ∈ g.
Proof.
  induction g as [|[k0 ys] g IH]; simpl; [done|].
  destruct (decide (k = k0)) as [->|_]; [by left|].
  intros Hne. right. by apply IH.
Qed.

(** A group is in the result exactly when rows have its key, and it holds
    these rows in the order of the table. *)
Lemma groupby_elem (key : A -> option pystr) (l : list A) k (xs : list A) :
  (k, xs) ∈ groupby key l
  <-> xs = filter (fun x => key x = Some k) l /\ xs <> [].
Proof.
  split.
  - intros Hin. split.
    + rewrite <- group_of_groupby. symmetry.
      apply group_of_elem; [apply groupby_ascending|done].
    + pose proof (groupby_nonempty key l) as Hne.
      rewrite Forall_forall in Hne. exact (Hne _ Hin).
  - intros [-> Hne]. rewrite <- group_of_groupby in *.
    by apply group_of_nonempty_elem.
Qed.

End Groups.

Section Counts.

Lemma sizes_ascending {A : Type} (g : list (pystr * list A)) :
  keys_ascending g ->
  StronglySorted (fun a b : pystr * nat => str_compare a.1 b.1 = Lt)
    ((fun kg => (kg.1, length kg.2)) <$> g).
Proof.
  unfold keys_ascending. induction 1 as [|kg g Hs IH Hall]; [constructor|].
  rewrite fmap_cons. constructor; [exact IH|].
  apply Forall_fmap. eapply Forall_impl; [exact Hall|]. by intros [? ?].
Qed.

(** The monthly counts list every YearMonth of the table once, in
    ascending order of the key, with the number of rows that carry it;
    no count is zero. *)
Theorem monthly_counts_keys_and_sizes (df : DataFrame) :
  StronglySorted (fun a b : pystr * nat => str_compare a.1 b.1 = Lt)
    (monthly_counts df)
  /\ forall k n,
       (k, n) ∈ monthly_counts df
       <-> n = length (filter (fun r => YearMonth r = Some k) (rows df))
           /\ 0 < n.
Proof.
  unfold monthly_counts. split.
  - apply sizes_ascending, groupby_ascending.
  - intros k n. rewrite list_elem_of_fmap. split.
    + intros ([k' xs] & [= -> ->] & Hin). simpl.
      apply groupby_elem in Hin as [-> Hne]. split; [done|].
      destruct (filter _ _); [done|simpl; lia].
    + intros [-> Hpos].
      exists (k, filter (fun r => YearMonth r = Some k) (rows df)).
      split; [done|]. apply groupby_elem. split; [done|].
      intros Heq. rewrite Heq in Hpos. simpl in Hpos. lia.
Qed.

End Counts.

Section PublisherPages.

Lemma unique_elem (l : list (option pystr)) (x : option pystr) :
  x ∈ unique l <-> x ∈ l.
Proof.
  induction l as [|y l IH]; [done|]. simpl.
  rewrite !elem_of_cons, list_elem_of_filter, IH.
  destruct (decide (x = y)); tauto.
Qed.

Lemma unique_NoDup (l : list (option pystr)) : NoDup (unique l).
Proof.
  induction l as [|y l IH]; simpl; [constructor|].
  constructor; [|by apply NoDup_filter].
  rewrite list_elem_of_filter. by intros [Hne _].
Qed.

Lemma insert_asc_elem (x z : pystr) (l : list pystr) :
  z ∈ insert_asc x l <-> z = x \/ z ∈ l.
Proof.
  induction l as [|y l IH]; simpl.
  - rewrite list_elem_of_singleton. rewrite elem_of_nil. tauto.
  - destruct (str_compare x y); rewrite ?elem_of_cons, ?IH, ?elem_of_cons;
      tauto.
Qed.

Lemma insert_asc_strict (x : pystr) (l : list pystr) :
  StronglySorted (fun a b => str_compare a b = Lt) l -> x ∉ l ->
  StronglySorted (fun a b => str_compare a b = Lt) (insert_asc x l).
Proof.
  induction l as [|y l IH]; simpl; intros Hs Hx.
  - repeat constructor.
  - apply StronglySorted_inv in Hs as [Hs Hall].
    apply not_elem_of_cons in Hx as [Hxy Hx].
    destruct (str_compare x y) eqn:Hc.
    + by apply str_compare_eq in Hc.
    + constructor; [by constructor|]. constructor; [done|].
      eapply Forall_impl; [exact Hall|]. intros z Hz.
      by eapply str_compare_lt_trans.
    + constructor; [by apply IH|].
      apply Forall_forall. intros z [->|Hz]%insert_asc_elem.
      * by rewrite str_compare_antisym, Hc.
      * rewrite Forall_forall in Hall. by apply Hall.
Qed.

Lemma sort_asc_strict (l : list pystr) :
  NoDup l ->
  StronglySorted (fun a b => str_compare a b = Lt) (foldr insert_asc [] l)
  /\ forall z, z ∈ foldr insert_asc [] l <-> z ∈ l.
Proof.
  induction 1 as [|x l Hx _ [IHs IHe]]; simpl.
  - split; [constructor|done].
  - split.
    + apply insert_asc_strict; [done|]. by rewrite IHe.
    + intros z. rewrite insert_asc_elem, IHe, elem_of_cons. tauto.
Qed.

Lemma dropna_Some (l : list pystr) : dropna (Some <$> l) = l.
Proof.
  unfold dropna. induction l as [|x l IH]; [done|]. simpl. f_equal. exact IH.
Qed.

Lemma dropna_length_le {B : Type} (l : list (option B)) :
  length (dropna l) <= length l.
Proof.
  induction l as [|[x|] l IH]; [done| |].
  - change (dropna (Some x :: l)) with (x :: dropna l). simpl. lia.
  - change (dropna (None :: l)) with (dropna l). simpl. lia.
Qed.

Lemma dropna_length_all (l : list (option pystr)) :
  length (dropna l) = length l -> l = Some <$> dropna l.
Proof.
  induction l as [|[x|] l IH]; [done| |].
  - change (dropna (Some x :: l)) with (x :: dropna l). simpl.
    intros [= Hl]. f_equal. by apply IH.
  - change (dropna (None :: l)) with (dropna l). simpl.
    intros Hl. pose proof (dropna_length_le l). lia.
Qed.

(** The options of the publisher select box.  When every row has a
    publisher, they are the publishers of the table, each once, in strictly
    ascending order.  When one row has none and another has one, sorting
    compares a [str] with NaN and raises TypeError: the page does not
    render. *)
Theorem publisher_options_sorted_or_TypeError (df : DataFrame) :
  (Forall (fun r => is_Some (Publisher r)) (rows df) ->
     exists ps, publisher_options df = Some (Some <$> ps)
       /\ StronglySorted (fun a b => str_compare a b = Lt) ps
       /\ forall p, p ∈ ps <-> exists r, r ∈ rows df /\ Publisher r = Some p)
  /\ (forall r1 r2 p, r1 ∈ rows df -> r2 ∈ rows df ->
        Publisher r1 = None -> Publisher r2 = Some p ->
        publisher_options df = None).
Proof.
  unfold publisher_options, py_sorted.
  assert (forall x, x ∈ unique (Publisher <$> rows df)
                    <-> exists r, r ∈ rows df /\ Publisher r = x) as Hu.
  { intros x. rewrite unique_elem, list_elem_of_fmap. split.
    - intros (r & -> & Hr). by exists r.
    - intros (r & Hr & <-). by exists r. }
  pose proof (unique_NoDup (Publisher <$> rows df)) as Hnd.
  revert Hu Hnd. generalize (unique (Publisher <$> rows df)).
  intros us Hu Hnd. split.
  - intros Hall.
    assert (length (dropna us) = length us) as Hlen.
    { assert (Forall is_Some us) as Hus.
      { apply Forall_forall. intros x (r & Hr & <-)%Hu.
        rewrite Forall_forall in Hall. by apply Hall. }
      clear -Hus.
      induction Hus as [|x l [y ->] _ IH]; [done|].
      change (dropna (Some y :: l)) with (y :: dropna l). simpl.
      by rewrite IH. }
    pose proof (dropna_length_all us Hlen) as Hall_present.
    assert (NoDup (dropna us)) as Hnd'.
    { rewrite Hall_present in Hnd.
      by apply NoDup_fmap in Hnd; [|apply _]. }
    destruct (sort_asc_strict (dropna us) Hnd') as [Hs He].
    assert (forall p, p ∈ foldr insert_asc [] (dropna us)
                      <-> exists r, r ∈ rows df /\ Publisher r = Some p) as Hmem.
    { intros p. rewrite He, <- Hu. rewrite Hall_present at 2.
      split.
      - intros Hp. by apply list_elem_of_fmap_2.
      - by intros (q & [= ->] & Hq)%list_elem_of_fmap. }
    destruct (dropna us) as [|q qs] eqn:Hd.
    + exists []. simpl in Hlen. symmetry in Hlen.
      apply length_zero_iff_nil in Hlen. rewrite Hlen.
      split; [done|]. split; [constructor|]. intros p. by rewrite <- Hmem.
    + exists (foldr insert_asc [] (q :: qs)).
      rewrite decide_True by done. done.
  - intros r1 r2 p Hr1 Hr2 Hn Hp.
    assert (None ∈ us) as HN by (apply Hu; by exists r1).
    assert (Some p ∈ us) as HS by (apply Hu; by exists r2).
    assert (length (dropna us) < length us) as Hlt.
    { clear -HN. induction us as [|[x|] us IH].
      - by apply elem_of_nil in HN.
      - apply elem_of_cons in HN as [|HN]; [done|]. specialize (IH HN).
        change (dropna (Some x :: us)) with (x :: dropna us). simpl. lia.
      - change (dropna (None :: us)) with (dropna us).
        pose proof (dropna_length_le us). simpl. lia. }
    destruct (dropna us) as [|q qs] eqn:Hd.
    + exfalso. clear -HS Hd.
      induction us as [|[x|] us IH].
      * by apply elem_of_nil in HS.
      * discriminate.
      * apply elem_of_cons in HS as [|HS]; [done|]. by apply IH.
    + rewrite decide_False by lia. done.
Qed.

End PublisherPages.

Section PublisherTrend.
Context `{PandasParsers}.

Lemma loaded_yearmonth_present (raw : list RawRow) (df : DataFrame)
    (b : BookRecord) :
  load_data_body (Some raw) = Ok (Some df) -> b ∈ rows df ->
  is_Some (YearMonth b).
Proof.
  intros Hl Hb. destruct (loaded_row_inv _ _ _ Hl Hb) as (r & p & _ & _ & ->).
  rewrite prepared_yearmonth. by eexists.
Qed.


End PublisherTrend.

Section TopPublishers.

Lemma filter_isin_publisher (tops : list pystr) (k : pystr)
    (rs : list BookRecord) :
  filter (fun r => Publisher r = Some k) (isin tops rs)
  = if decide (k ∈ tops) then filter (fun r => Publisher r = Some k) rs
    else [].
Proof.
  unfold isin. destruct (decide (k ∈ tops)) as [Hk|Hk].
  - apply list_filter_filter_l. intros r ->. by apply list_elem_of_fmap_2.
  - induction rs as [|r rs IH]; [done|].
    rewrite (filter_cons (fun r => Publisher r ∈ Some <$> tops)).
    destruct (decide (Publisher r ∈ Some <$> tops)) as [Hin|_]; [|exact IH].
    rewrite filter_cons_False; [exact IH|].
    intros Hp. rewrite Hp in Hin.
    apply list_elem_of_fmap in Hin as (q & [= <-] & Hq). done.
Qed.

(** Averages by publisher on the rows of the chosen publishers: a
    publisher has a row exactly when it is chosen and occurs in the table,
    and its average is the one over all its rows in the whole table, never
    missing. *)
Theorem avg_sales_of_chosen_publishers (tops : list pystr)
    (rs : list BookRecord) (k : pystr) (m : option Q) :
  (k, m) ∈ avg_sales tops rs
  <-> k ∈ tops
      /\ (exists r, r ∈ rs /\ Publisher r = Some k)
      /\ m = series_mean (sales_column
                 (filter (fun r => Publisher r = Some k) rs))
      /\ is_Some m.
Proof.
  unfold avg_sales, publisher_sales_mean. rewrite list_elem_of_fmap.
  assert (forall xs : list BookRecord, xs <> [] ->
            is_Some (series_mean (sales_column xs))) as Hsome.
  { intros [|b xs] Hne; [done|]. rewrite sales_mean_all_rows. by eexists. }
  split.
  - intros ([k' xs] & [= -> ->] & Hin). simpl.
    apply groupby_elem in Hin as [Hxs Hne].
    rewrite filter_isin_publisher in Hxs.
    destruct (decide (k' ∈ tops)) as [Hk|Hk]; [|congruence].
    subst xs. split; [done|]. split.
    + destruct (filter _ rs) as [|r l] eqn:Hf; [done|].
      exists r. assert (r ∈ filter (fun r => Publisher r = Some k') rs) as Hr
        by (rewrite Hf; by left).
      apply list_elem_of_filter in Hr as [? ?]. done.
    + split; [done|]. by apply Hsome.
  - intros (Hk & (r & Hr & Hp) & -> & _).
    exists (k, filter (fun r => Publisher r = Some k) rs).
    split; [done|]. apply groupby_elem.
    rewrite filter_isin_publisher, decide_True by done.
    split; [done|]. intros Hnil.
    assert (r ∈ filter (fun r => Publisher r = Some k) rs) as Hin
      by (by apply list_elem_of_filter).
    rewrite Hnil in Hin. by apply elem_of_nil in Hin.
Qed.

End TopPublishers.

(** ** Price buckets *)

Section PriceBuckets.

Ltac q_facts :=
  repeat match goal with
         | H : Qle_bool _ _ = true |- _ => apply Qle_bool_iff in H
         | H : Qle_bool _ _ = false |- _ =>
           apply not_true_iff_false in H; rewrite Qle_bool_iff in H;
           apply Qnot_le_lt in H
         end.

Lemma cut_price_bucket (i : nat) (lab : pystr) (lo hi : Q) (q : Q) :
  price_labels !! i = Some lab -> price_bins !! i = Some lo ->
  price_bins !! S i = Some hi ->
  (cut_price (Some q) = Some lab <-> in_bucket lo hi (Some q) = true).
Proof.
  intros Hlab Hlo Hhi.
  destruct i as [|[|[|[|[|i]]]]]; [..|done];
    injection Hlab as <-; injection Hlo as <-; injection Hhi as <-;
    unfold cut_price, in_bucket;
    rewrite andb_true_iff, negb_true_iff;
    destruct (Qle_bool q 0) eqn:H0; destruct (Qle_bool q 15000) eqn:H1;
    destruct (Qle_bool q 25000) eqn:H2; destruct (Qle_bool q 35000) eqn:H3;
    destruct (Qle_bool q 50000) eqn:H4; destruct (Qle_bool q 100000) eqn:H5;
    (split; [intros He; try (vm_compute in He; discriminate He)
            |intros [Ha Hb]; try discriminate Ha; try discriminate Hb]);
    try (split; reflexivity); try reflexivity;
    q_facts; exfalso; Lqa.lra.
Qed.

Lemma cut_price_outside (p : option Q) :
  cut_price p = None
  <-> match p with
      | None => True
      | Some q => (q <= 0)%Q \/ (100000 < q)%Q
      end.
Proof.
  destruct p as [q|]; [|done]. unfold cut_price.
  destruct (Qle_bool q 0) eqn:H0; [q_facts; tauto|].
  destruct (Qle_bool q 15000) eqn:H1;
    [split; [done|q_facts; intros [?|?]; Lqa.lra]|].
  destruct (Qle_bool q 25000) eqn:H2;
    [split; [done|q_facts; intros [?|?]; Lqa.lra]|].
  destruct (Qle_bool q 35000) eqn:H3;
    [split; [done|q_facts; intros [?|?]; Lqa.lra]|].
  destruct (Qle_bool q 50000) eqn:H4;
    [split; [done|q_facts; intros [?|?]; Lqa.lra]|].
  destruct (Qle_bool q 100000) eqn:H5;
    [split; [done|q_facts; intros [?|?]; Lqa.lra]|].
  q_facts. split; [|done]. intros _. by right.
Qed.

Lemma filter_bool_prop {A : Type} (P : A -> Prop) `{forall x, Decision (P x)}
    (f : A -> bool) (l : list A) :
  (forall x, P x <-> f x = true) -> filter P l = List.filter f l.
Proof.
  intros Hiff. induction l as [|x l IH]; [done|]. simpl.
  rewrite filter_cons. destruct (decide (P x)) as [Hp|Hp].
  - rewrite (proj1 (Hiff x) Hp). by rewrite IH.
  - destruct (f x) eqn:Hf; [by apply Hiff in Hf|exact IH].
Qed.



End PriceBuckets.

(** ** The search page *)

Section SearchPage.

Lemma keyword_filter_rows (kw : pystr) (df fd : DataFrame) :
  keyword_filter kw df = Some fd ->
  rows fd = rows df
  \/ exists pat, Regex.compile kw = Some pat
       /\ rows fd = List.filter (row_mask pat) (rows df).
Proof.
  unfold keyword_filter. destruct kw as [|c kw].
  - intros [= <-]. by left.
  - destruct (Regex.compile (c :: kw)) as [pat|] eqn:Hc; [|discriminate].
    simpl. intros [= <-]. right. exists pat. split; [done|].
    unfold getitem_mask. cbn [rows]. rewrite keyword_mask. apply select_fmap.
Qed.

Lemma filter_bool_sublist {A : Type} (f : A -> bool) (l : list A) :
  List.filter f l `sublist_of` l.
Proof.
  induction l as [|x l IH]; simpl; [constructor|].
  destruct (f x); by constructor.
Qed.

Lemma filter_bool_idemp {A : Type} (f : A -> bool) (l : list A) :
  List.filter f (List.filter f l) = List.filter f l.
Proof.
  induction l as [|x l IH]; [done|]. simpl.
  destruct (f x) eqn:Hf; [|exact IH]. simpl. by rewrite Hf, IH.
Qed.

(** The search never adds or reorders rows: the result is a subsequence
    of the table.  Searching the result again with the same keyword keeps
    all of it. *)
Theorem keyword_filter_subsequence_idempotent (kw : pystr)
    (df fd : DataFrame) :
  keyword_filter kw df = Some fd ->
  rows fd `sublist_of` rows df
  /\ exists fd', keyword_filter kw fd = Some fd' /\ rows fd' = rows fd.
Proof.
  intros Hf. pose proof Hf as Hrows.
  apply keyword_filter_rows in Hrows as [Hsame|(pat & Hc & Hrows)].
  - split; [by rewrite Hsame|].
    destruct kw as [|c kw]; [by exists fd|].
    unfold keyword_filter in *.
    destruct (Regex.compile (c :: kw)) as [pat|] eqn:Hc; [|discriminate].
    simpl in *. eexists. split; [reflexivity|].
    injection Hf as <-. unfold getitem_mask in *. cbn [rows] in *.
    rewrite !keyword_mask, !select_fmap in *.
    rewrite filter_bool_idemp. done.
  - split; [rewrite Hrows; apply filter_bool_sublist|].
    destruct kw as [|c kw]; [by exists fd|].
    unfold keyword_filter. rewrite Hc. simpl.
    eexists. split; [reflexivity|].
    unfold getitem_mask. cbn [rows]. rewrite keyword_mask, select_fmap.
    rewrite Hrows. apply filter_bool_idemp.
Qed.

Lemma lower_eq_cases (c c' : N) :
  lower c = lower c' ->
  c = c' \/ (((65 <= c <= 90) /\ c' = c + 32) \/ ((65 <= c' <= 90) /\ c = c' + 32))%N.
Proof.
  unfold lower. intros Hl.
  destruct (decide (c = c')) as [->|Hne]; [by left|]. right.
  destruct ((65 <=? c) && (c <=? 90))%N eqn:Hc;
    destruct ((65 <=? c') && (c' <=? 90))%N eqn:Hc'.
  - lia.
  - apply andb_true_iff in Hc as [?%N.leb_le ?%N.leb_le]. left. lia.
  - apply andb_true_iff in Hc' as [?%N.leb_le ?%N.leb_le]. right. lia.
  - done.
Qed.

Lemma lower_same_kind (c c' : N) :
  lower c = lower c' ->
  (c =? 46)%N = (c' =? 46)%N /\ (c =? 92)%N = (c' =? 92)%N
  /\ Regex.is_meta c = Regex.is_meta c'
  /\ Regex.is_ascii_alnum c = Regex.is_ascii_alnum c'.
Proof.
  intros [->|Hcase]%lower_eq_cases; [done|].
  unfold Regex.is_meta, Regex.is_ascii_alnum.
  repeat match goal with
         | |- context [(?a =? ?b)%N] => destruct (N.eqb_spec a b); try lia
         | |- context [(?a <=? ?b)%N] => destruct (N.leb_spec a b); try lia
         end; done.
Qed.

Lemma lower_eq_not_alnum (d d' : N) :
  lower d = lower d' -> Regex.is_ascii_alnum d = false -> d = d'.
Proof.
  intros [->|Hcase]%lower_eq_cases; [done|].
  unfold Regex.is_ascii_alnum.
  repeat match goal with
         | |- context [(?a <=? ?b)%N] => destruct (N.leb_spec a b); try lia
         end; done.
Qed.

Lemma compile_same_case (n : nat) (kw kw' : pystr) :
  length kw <= n -> lower <$> kw = lower <$> kw' ->
  match Regex.compile kw, Regex.compile kw' with
  | Some p, Some p' => same_atoms p p'
  | None, None => True
  | _, _ => False
  end.
Proof.
  revert kw kw'. induction n as [|n IH]; intros kw kw' Hn Hl.
  { destruct kw; [|simpl in Hn; lia]. destruct kw'; [|done]. constructor. }
  destruct kw as [|c kw]; destruct kw' as [|c' kw']; try done.
  { constructor. }
  rewrite !fmap_cons in Hl. injection Hl as Hc Hl.
  destruct (lower_same_kind c c' Hc) as (Hdot & Hbs & Hmeta & _).
  simpl in Hn. cbn [Regex.compile]. rewrite <- Hdot, <- Hbs, <- Hmeta.
  destruct (c =? 46)%N.
  { specialize (IH kw kw' ltac:(lia) Hl).
    destruct (Regex.compile kw), (Regex.compile kw'); simpl; try done.
    by constructor. }
  destruct (c =? 92)%N.
  { destruct kw as [|d kw]; destruct kw' as [|d' kw']; try done.
    rewrite !fmap_cons in Hl. injection Hl as Hd Hl.
    destruct (lower_same_kind d d' Hd) as (_ & _ & _ & Halnum).
    rewrite <- Halnum. destruct (Regex.is_ascii_alnum d) eqn:Had; [done|].
    assert (d = d') as <- by (by apply lower_eq_not_alnum).
    simpl in Hn. specialize (IH kw kw' ltac:(lia) Hl).
    destruct (Regex.compile kw), (Regex.compile kw'); simpl; try done.
    by constructor. }
  destruct (Regex.is_meta c); [done|].
  specialize (IH kw kw' ltac:(lia) Hl).
  destruct (Regex.compile kw), (Regex.compile kw'); simpl; try done.
  constructor; [|done]. intros x. simpl. by rewrite Hc.
Qed.

Lemma search_same_atoms (p p' : list Regex.atom) (s : pystr) :
  same_atoms p p' -> Regex.search p s = Regex.search p' s.
Proof.
  intros Hp.
  assert (forall t, Regex.match_here p t = Regex.match_here p' t) as Hm.
  { induction Hp as [|a b p p' Hab _ IH]; intros t; [done|].
    destruct t as [|c t]; [done|]. simpl. by rewrite Hab, IH. }
  induction s as [|c s IH]; simpl; [by rewrite Hm|]. by rewrite Hm, IH.
Qed.


Lemma select_sublist_elem {A : Type} (f : A -> bool) (l : list A) (x : A) :
  x ∈ List.filter f l -> x ∈ l.
Proof.
  intros Hx. apply list_elem_of_In in Hx. apply filter_In in Hx as [Hx _].
  by apply list_elem_of_In.
Qed.

Lemma descending_app_dominates {A : Type} (key : A -> Q) (l1 l2 : list A)
    (a b : A) :
  descending key (l1 ++ l2) -> a ∈ l1 -> b ∈ l2 -> (key b <= key a)%Q.
Proof.
  unfold descending. induction l1 as [|x l1 IH]; intros Hs Ha Hb.
  { by apply elem_of_nil in Ha. }
  simpl in Hs. apply StronglySorted_inv in Hs as [Hs Hall].
  apply elem_of_cons in Ha as [->|Ha]; [|by apply IH].
  rewrite Forall_forall in Hall. apply Hall. apply elem_of_app. by right.
Qed.

(** The five best sellers of a search are five rows of the result (all of
    them when fewer matched), in descending order of Sales Index; each is
    a row of the table, and no row of the result left out sells more than
    one that is shown. *)
Theorem top_search_best_of_result (kw : pystr) (df fd : DataFrame) :
  keyword_filter kw df = Some fd ->
  length (top_search fd) = min 5 (length (rows fd))
  /\ descending Sales_Index (top_search fd)
  /\ (forall b, b ∈ top_search fd -> b ∈ rows df)
  /\ exists rest,
       Permutation (top_search fd ++ rest) (rows fd)
       /\ forall a b, a ∈ top_search fd -> b ∈ rest ->
            (Sales_Index b <= Sales_Index a)%Q.
Proof.
  intros Hf. unfold top_search, nlargest.
  pose proof (sort_desc_perm Sales_Index (rows fd)) as Hperm.
  pose proof (sort_desc_descending Sales_Index (rows fd)) as Hdesc.
  split; [|split; [|split]].
  - rewrite length_take. by rewrite (Permutation_length Hperm).
  - by apply descending_take.
  - intros b Hb.
    assert (b ∈ rows fd) as Hfd.
    { rewrite <- Hperm. rewrite <- (take_drop 5). apply elem_of_app. by left. }
    apply keyword_filter_rows in Hf as [<-|(pat & _ & Hrows)]; [done|].
    rewrite Hrows in Hfd. by eapply select_sublist_elem.
  - exists (drop 5 (sort_desc Sales_Index (rows fd))).
    rewrite take_drop. split; [exact Hperm|].
    intros a b Ha Hb.
    rewrite <- (take_drop 5 (sort_desc Sales_Index (rows fd))) in Hdesc.
    by eapply descending_app_dominates.
Qed.

End SearchPage.

Section SearchWitnesses.
Local Existing Instance Sample.parsers.

Lemma keyword_filter_subsequence_idempotent_witness :
  let fd := default (mkDataFrame [] ∅)
              (keyword_filter (u "ai") (loaded Sample.csv_ok)) in
  keyword_filter (u "ai") (loaded Sample.csv_ok) = Some fd
  /\ rows fd `sublist_of` rows (loaded Sample.csv_ok).
Proof.
  intros fd.
  assert (keyword_filter (u "ai") (loaded Sample.csv_ok) = Some fd) as Hf
    by (vm_compute; reflexivity).
  split; [exact Hf|].
  exact (proj1 (keyword_filter_subsequence_idempotent (u "ai")
                  (loaded Sample.csv_ok) fd Hf)).
Defined.


Lemma top_search_best_of_result_witness :
  let fd := default (mkDataFrame [] ∅)
              (keyword_filter (u "ai") (loaded Sample.csv_ok)) in
  keyword_filter (u "ai") (loaded Sample.csv_ok) = Some fd
  /\ length (top_search fd) = min 5 (length (rows fd)).
Proof.
  intros fd.
  assert (keyword_filter (u "ai") (loaded Sample.csv_ok) = Some fd) as Hf
    by (vm_compute; reflexivity).
  split; [exact Hf|].
  exact (proj1 (top_search_best_of_result (u "ai") (loaded Sample.csv_ok)
                  fd Hf)).
Defined.


Lemma publisher_options_sorted_or_TypeError_witness :
  exists ps, publisher_options (loaded Sample.csv_ok) = Some (Some <$> ps)
    /\ StronglySorted (fun a b => str_compare a b = Lt) ps.
Proof.
  destruct (proj1 (publisher_options_sorted_or_TypeError (loaded Sample.csv_ok)))
    as (ps & Hps & Hs & _).
  - vm_compute. repeat (apply Forall_cons_2; [by eexists|]). apply Forall_nil_2.
  - exists ps. split; [exact Hps|exact Hs].
Defined.

End SearchWitnesses.

(** ** Words for the cloud *)

Section Words.

Lemma runs_go_split (a b cur : pystr) (c : N) :
  is_word_char c = false ->
  runs_go (a ++ c :: b) cur = runs_go a cur ++ runs_go b [].
Proof.
  intros Hc. revert cur. induction a as [|x a IH]; intros cur; simpl.
  - rewrite Hc. by destruct cur.
  - destruct (is_word_char x); [apply IH|].
    destruct cur; rewrite IH; done.
Qed.

Lemma runs_go_whole (s cur : pystr) :
  Forall (fun c => is_word_char c = true) s -> cur ++ s <> [] ->
  runs_go s cur = [cur ++ s].
Proof.
  intros Hs. revert cur. induction Hs as [|c s Hc _ IH]; intros cur Hne; simpl.
  - rewrite app_nil_r in *. by destruct cur.
  - rewrite Hc. rewrite IH; rewrite <- app_assoc; [done|].
    simpl. by destruct cur.
Qed.

Lemma runs_go_tokens (s cur : pystr) :
  Forall (fun c => is_word_char c = true) cur ->
  Forall (fun w => w <> [] /\ Forall (fun c => is_word_char c = true) w)
         (runs_go s cur)
  /\ concat (runs_go s cur) = cur ++ List.filter is_word_char s.
Proof.
  revert cur. induction s as [|c s IH]; intros cur Hcur; simpl.
  - destruct cur as [|x cur]; simpl.
    + split; [constructor|done].
    + split; [apply Forall_cons_2; [by split|apply Forall_nil_2]|].
      by rewrite !app_nil_r.
  - destruct (is_word_char c) eqn:Hc.
    + destruct (IH (cur ++ [c])) as [Hall Hcat].
      { apply Forall_app. split; [done|].
        apply Forall_cons_2; [done|apply Forall_nil_2]. }
      split; [exact Hall|]. rewrite Hcat, <- app_assoc. done.
    + destruct (IH []) as [Hall Hcat]; [constructor|].
      destruct cur as [|x cur]; [by split|].
      split; [apply Forall_cons_2; [by split|exact Hall]|].
      simpl. simpl in Hcat. by rewrite Hcat.
Qed.

(** The words found in a text are not empty and are made of Hangul
    syllables, ASCII letters and digits only; put end to end they are the
    characters of that kind of the text, in order, none lost and none
    added; a text made of such characters only is one word, and any other
    character ends a word. *)
Theorem findall_words_tokens (text : pystr) :
  Forall (fun w => w <> [] /\ Forall (fun c => is_word_char c = true) w)
         (findall_words text)
  /\ concat (findall_words text) = List.filter is_word_char text
  /\ (text <> [] -> Forall (fun c => is_word_char c = true) text ->
      findall_words text = [text])
  /\ (forall a b c, text = a ++ c :: b -> is_word_char c = false ->
      findall_words text = findall_words a ++ findall_words b).
Proof.
  unfold findall_words.
  destruct (runs_go_tokens text []) as [Hall Hcat]; [constructor|].
  split; [exact Hall|]. split; [exact Hcat|]. split.
  - intros Hne Hw. by rewrite runs_go_whole.
  - intros a b c -> Hc. by apply runs_go_split.
Qed.

Lemma findall_join (parts : list pystr) :
  findall_words (join (u " ") parts) = concat (findall_words <$> parts).
Proof.
  unfold findall_words.
  induction parts as [|p parts IH]; [done|].
  destruct parts as [|p' parts].
  - simpl. by rewrite app_nil_r.
  - change (join (u " ") (p :: p' :: parts))
      with (p ++ 32%N :: join (u " ") (p' :: parts)).
    rewrite runs_go_split by done. rewrite IH. done.
Qed.

Lemma filter_bool_concat {A : Type} (f : A -> bool) (ls : list (list A)) :
  List.filter f (concat ls) = concat (List.filter f <$> ls).
Proof.
  induction ls as [|l ls IH]; [done|]. simpl.
  by rewrite List.filter_app, IH.
Qed.

(** The words of the cloud are collected field by field: for every row,
    the kept words of its Title, then those of its Subtitle, a missing
    field giving none; no word runs over two fields or two rows.  A kept
    word has at least two characters and is not, as written, one of the
    stop words. *)
Theorem cloud_words_field_by_field (rs : list BookRecord) :
  cloud_words rs
  = concat ((fun r =>
               List.filter keep_word (findall_words (default [] (Title r)))
               ++ List.filter keep_word
                    (findall_words (default [] (Subtitle r)))) <$> rs)
  /\ forall w, w ∈ cloud_words rs -> 1 < length w /\ w ∉ stopwords.
Proof.
  split.
  - unfold cloud_words, cloud_text. rewrite findall_join, filter_bool_concat.
    rewrite <- !list_fmap_compose. f_equal. apply list_fmap_ext.
    intros _ r _. simpl. unfold row_text, findall_words.
    change (u " ") with [32%N]. simpl.
    rewrite runs_go_split by done. by rewrite List.filter_app.
  - intros w Hw. unfold cloud_words in Hw.
    apply list_elem_of_In, filter_In in Hw as [_ Hk].
    unfold keep_word in Hk. apply andb_true_iff in Hk as [H1 H2].
    apply bool_decide_eq_true in H1, H2. done.
Qed.

End Words.

(** ** Navigation *)

Section Navigation.

(** Every option of the sidebar reaches its own page: none holds the key
    of a page tested before its own. *)
Theorem every_option_reaches_its_page (i : nat) (label : pystr) :
  menu_options !! i = Some label ->
  dispatch label = [Home; Sales; PublisherView; PriceRating; Search] !! i.
Proof.
  intros Hi.
  destruct i as [|[|[|[|[|i]]]]]; vm_compute in Hi;
    [..|discriminate Hi]; injection Hi as <-; vm_compute; reflexivity.
Qed.

Lemma every_option_reaches_its_page_witness :
  dispatch (u "가격 및 평점 (Price & Rating)") = Some PriceRating.
Proof.
  exact (every_option_reaches_its_page 3 _ eq_refl).
Defined.

End Navigation.
